(** * customize-uploader: the import pipeline of [src/import.ts]

    A shallow embedding of [importCustomizeSetting] and of the two stages it
    sequences, [exportAsManifestFile] and [downloadCustomizeFiles], together
    with the part of the JavaScript run time they rely on: exceptions thrown
    synchronously, promises that settle, a heap of [status] objects, the
    file system reached through [fs] and [mkdirp], and the asynchronous
    operations still in flight when a function returns. *)

From Stdlib Require Import ZArith String Ascii List Lia.
From stdpp Require Import base option list gmap strings sorting.
From Equations Require Import Equations.

#[local] Set Warnings "-register-all".

(** ** Characters that cannot be written inside a string literal *)

Definition LF : string := String (ascii_of_nat 10) EmptyString.
Definition DQUOTE : string := String (ascii_of_nat 34) EmptyString.
Definition BACKSLASH : string := String (ascii_of_nat 92) EmptyString.

(** ** Data model *)

(** [CustomizeFile = UploadedFile | CDNFile], the tagged union of lines
    22-34; the tag [type] is the constructor. *)
Inductive CustomizeFile : Type :=
| UploadedFile (fileKey name : string)
| CDNFile (url : string).

Inductive Scope : Type := ALL | ADMIN | NONE.

Definition Scope_to_string (s : Scope) : string :=
  match s with ALL => "ALL" | ADMIN => "ADMIN" | NONE => "NONE" end.

(** [GetAppCustomizeResp]; [desktop] and [mobile] are typed [any] in the
    source and only ever read at [.js] and [.css]. *)
Record GetAppCustomizeResp : Type := {
  scope : Scope;
  desktop_js : list CustomizeFile;
  desktop_css : list CustomizeFile;
  mobile_js : list CustomizeFile
}.

(** The object literal of lines 103-113. *)
Record CustomizeManifest : Type := {
  app : string;
  manifest_scope : Scope;
  manifest_desktop_js : list string;
  manifest_desktop_css : list string;
  manifest_mobile_js : list string
}.

Record ImportCustomizeManifest : Type := { import_app : string }.

(** Modelled from the spec: the type [Lang] of [./lang] is not part of the
    sources at hand; the usage text names its two values, [en] and [ja]. *)
Inductive Lang : Type := en | ja.

Record Option : Type := {
  lang : Lang;
  proxy : string;
  guestSpaceId : Z;
  destDir : string
}.

(** Modelled from the spec: the class [AuthenticationError] is exported by
    [./KintoneApiClient], which is not part of the sources at hand; section
    7 of the specification has it stand for credentials refused by the
    remote service. [e instanceof AuthenticationError] is the only
    inspection the program makes of a thrown value, so the values that can
    be thrown are split in two. *)
Inductive JsError : Type :=
| AuthenticationError (message : string)
| Error (message : string).

Definition isAuthenticationError (e : JsError) : bool :=
  match e with AuthenticationError _ => true | Error _ => false end.

(** How a synchronous call ends, and how a promise settles. *)
Inductive Completion (A : Type) : Type :=
| Returned (a : A)
| Thrown (e : JsError).
Arguments Returned {A} a.
Arguments Thrown {A} e.

Inductive Settled (A : Type) : Type :=
| Resolved (a : A)
| Rejected (e : JsError).
Arguments Resolved {A} a.
Arguments Rejected {A} e.

(** ** [JSON.stringify] *)

Module JSON.

Inductive value : Type :=
| Str (s : string)
| Arr (elements : list value)
| Obj (members : list (string * value)).

Definition hex_digit (n : nat) : ascii :=
  if Nat.ltb n 10 then ascii_of_nat (48 + n) else ascii_of_nat (87 + n).

(** One code unit of QuoteJSONString. *)
Definition quote_char (c : ascii) : string :=
  let n := nat_of_ascii c in
  if Nat.eqb n 8 then BACKSLASH +:+ "b"
  else if Nat.eqb n 9 then BACKSLASH +:+ "t"
  else if Nat.eqb n 10 then BACKSLASH +:+ "n"
  else if Nat.eqb n 12 then BACKSLASH +:+ "f"
  else if Nat.eqb n 13 then BACKSLASH +:+ "r"
  else if Nat.eqb n 34 then BACKSLASH +:+ DQUOTE
  else if Nat.eqb n 92 then BACKSLASH +:+ BACKSLASH
  else if Nat.ltb n 32 then
    BACKSLASH +:+ "u00" +:+
    String (hex_digit (n / 16)) (String (hex_digit (n mod 16)) EmptyString)
  else String c EmptyString.

Fixpoint quote_body (s : string) : string :=
  match s with
  | EmptyString => EmptyString
  | String c rest => quote_char c +:+ quote_body rest
  end.

Definition QuoteJSONString (s : string) : string :=
  DQUOTE +:+ quote_body s +:+ DQUOTE.

Fixpoint join (separator : string) (parts : list string) : string :=
  match parts with
  | [] => EmptyString
  | [p] => p
  | p :: rest => p +:+ separator +:+ join separator rest
  end.

Definition is_empty (s : string) : bool :=
  match s with EmptyString => true | _ => false end.

(** The closing steps shared by SerializeJSONObject and
    SerializeJSONArray. *)
Definition wrap (opening closing gap stepback indent : string)
    (partial : list string) : string :=
  match partial with
  | [] => opening +:+ closing
  | _ =>
      if is_empty gap then opening +:+ join "," partial +:+ closing
      else opening +:+ LF +:+ indent +:+
           join ("," +:+ LF +:+ indent) partial +:+
           LF +:+ stepback +:+ closing
  end.

Fixpoint SerializeJSONProperty (gap indent : string) (v : value) : string :=
  match v with
  | Str s => QuoteJSONString s
  | Arr elements =>
      let stepback := indent in
      let indent := indent +:+ gap in
      wrap "[" "]" gap stepback indent
           (map (SerializeJSONProperty gap indent) elements)
  | Obj members =>
      let stepback := indent in
      let indent := indent +:+ gap in
      wrap "{" "}" gap stepback indent
           (map (fun kv : string * value =>
                   QuoteJSONString (fst kv) +:+ ":" +:+
                   (if is_empty gap then "" else " ") +:+
                   SerializeJSONProperty gap indent (snd kv))
                members)
  end.

Fixpoint spaces (n : nat) : string :=
  match n with O => EmptyString | S n => " " +:+ spaces n end.

(** [JSON.stringify(v, null, space)] for a numeric [space]. *)
Definition stringify (v : value) (space : nat) : string :=
  SerializeJSONProperty (spaces (Nat.min 10 space)) "" v.

End JSON.

(** The value [JSON.stringify] walks for a [CustomizeManifest]: members in
    the order the object literal creates them. *)
Definition manifest_to_JSON (m : CustomizeManifest) : JSON.value :=
  JSON.Obj
    [ ("app", JSON.Str (app m));
      ("scope", JSON.Str (Scope_to_string (manifest_scope m)));
      ("desktop", JSON.Obj
         [ ("js", JSON.Arr (map JSON.Str (manifest_desktop_js m)));
           ("css", JSON.Arr (map JSON.Str (manifest_desktop_css m))) ]);
      ("mobile", JSON.Obj
         [ ("js", JSON.Arr (map JSON.Str (manifest_mobile_js m))) ]) ].

(** ** The run time: heap, file system, client, pending operations *)

(** The [status] argument is a reference to an object [{ retryCount }];
    references are indices into the heap. *)
Record Status : Type := { retryCount : Z }.

Definition loc : Type := nat.

(** What the program does to the outside, in the order it does it. *)
Inductive Event : Type :=
| EvGetAppCustomize (appId : string)
| EvMkdirpSync (path : string)
| EvWriteFile (path data : string)
| EvDownloadFile (fileKey : string)
| EvWait (ms : Z)
| EvConsoleLog (message : string).

(** Asynchronous operations started by the program and not awaited:
    [fs.writeFile(path, data, cb)], and
    [downloadFile(key).then(resp => fs.writeFile(path, resp, cb))] once
    [downloadFile] has handed back its promise. *)
Inductive Task : Type :=
| WriteFile (path data : string)
| ThenWriteFile (download : Settled string) (path : string).

(** Directories and files by path, and the paths at which [mkdirp.sync]
    and [fs.writeFile] fail (permissions, a full disk, ...). *)
Record FileSystem : Type := {
  dirs : gset string;
  files : gmap string string;
  mkdirp_error : string -> option JsError;
  writeFile_error : string -> option JsError
}.

Record World : Type := {
  heap : list Status;
  disk : FileSystem;
  fetches : nat;
  trace : list Event;
  pending : list Task
}.

(** Modelled from the spec: the class [KintoneApiClient] is not part of the
    sources at hand. Section 6 of the specification gives the two methods
    the import uses; each either throws while it is being called or hands
    back a promise that settles later. The answer of [getAppCustomize] may
    change from one call to the next (transient failures), so it is
    indexed by the number of calls made before. *)
Record KintoneApiClient : Type := {
  getAppCustomize : nat -> string -> Completion (Settled GetAppCustomizeResp);
  downloadFile : string -> Completion (Settled string)
}.

(** Synchronous code: it reads and changes the world and returns or
    throws. *)
Definition Sync (A : Type) : Type := World -> Completion A * World.

(** Code whose result is a promise, followed until the promise settles. *)
Definition Async (A : Type) : Type := World -> Settled A * World.

#[export] Instance Sync_ret : MRet Sync :=
  fun A (a : A) (w : World) => (Returned a, w).

#[export] Instance Sync_bind : MBind Sync :=
  fun A B (k : A -> Sync B) (c : Sync A) (w : World) =>
    match c w with
    | (Returned a, w') => k a w'
    | (Thrown e, w') => (Thrown e, w')
    end.

Definition throw {A : Type} (e : JsError) : Sync A :=
  fun w => (Thrown e, w).

Definition emit (ev : Event) : Sync unit :=
  fun w =>
    (Returned tt,
     {| heap := heap w; disk := disk w; fetches := fetches w;
        trace := trace w ++ [ev]; pending := pending w |}).

Definition spawn (t : Task) : Sync unit :=
  fun w =>
    (Returned tt,
     {| heap := heap w; disk := disk w; fetches := fetches w;
        trace := trace w; pending := pending w ++ [t] |}).

Definition set_disk (d : FileSystem) (w : World) : World :=
  {| heap := heap w; disk := d; fetches := fetches w;
     trace := trace w; pending := pending w |}.

(** [{ retryCount }]: a new object, at a reference nothing else holds. *)
Definition new_status (s : Status) : World -> loc * World :=
  fun w =>
    (length (heap w),
     {| heap := heap w ++ [s]; disk := disk w; fetches := fetches w;
        trace := trace w; pending := pending w |}).

(** [p.then(onFulfilled)] and [p.catch(onRejected)], with the callback run
    when [p] settles. *)
Definition then_ {A B : Type} (p : Settled A) (onFulfilled : A -> Sync B)
  : Async B :=
  fun w =>
    match p with
    | Rejected e => (Rejected e, w)
    | Resolved a =>
        match onFulfilled a w with
        | (Returned b, w') => (Resolved b, w')
        | (Thrown e, w') => (Rejected e, w')
        end
    end.

Definition catch_ {A : Type} (p : Settled A) (onRejected : JsError -> Sync A)
  : Async A :=
  fun w =>
    match p with
    | Resolved a => (Resolved a, w)
    | Rejected e =>
        match onRejected e w with
        | (Returned a, w') => (Resolved a, w')
        | (Thrown e', w') => (Rejected e', w')
        end
    end.

Fixpoint forEach {A : Type} (f : A -> Sync unit) (l : list A) : Sync unit :=
  match l with
  | [] => mret tt
  | x :: rest => _ ← f x; forEach f rest
  end.

(** *** [fs], [mkdirp] and the client, as the program calls them *)

Definition path_exists (path : string) (d : FileSystem) : bool :=
  bool_decide (path ∈ dirs d \/ is_Some (files d !! path)).

Definition existsSync (path : string) : Sync bool :=
  fun w => (Returned (path_exists path (disk w)), w).

Definition add_dir (path : string) (d : FileSystem) : FileSystem :=
  {| dirs := {[path]} ∪ dirs d; files := files d;
     mkdirp_error := mkdirp_error d; writeFile_error := writeFile_error d |}.

Definition make_dir (path : string) : Sync unit :=
  fun w =>
    match mkdirp_error (disk w) path with
    | Some e => (Thrown e, w)
    | None => (Returned tt, set_disk (add_dir path (disk w)) w)
    end.

Definition mkdirp_sync (path : string) : Sync unit :=
  _ ← emit (EvMkdirpSync path); make_dir path.

(** [fs.writeFile] only starts the write. *)
Definition fs_writeFile (path data : string) : Sync unit :=
  _ ← emit (EvWriteFile path data);
  spawn (WriteFile path data).

Definition call_getAppCustomize (client : KintoneApiClient) (appId : string)
  : Sync (Settled GetAppCustomizeResp) :=
  fun w =>
    match getAppCustomize client (fetches w) appId with
    | Returned p =>
        (Returned p,
         {| heap := heap w; disk := disk w; fetches := S (fetches w);
            trace := trace w ++ [EvGetAppCustomize appId];
            pending := pending w |})
    | Thrown e =>
        (Thrown e,
         {| heap := heap w; disk := disk w; fetches := S (fetches w);
            trace := trace w ++ [EvGetAppCustomize appId];
            pending := pending w |})
    end.

Definition call_downloadFile (client : KintoneApiClient) (fileKey : string)
  : Sync (Settled string) :=
  _ ← emit (EvDownloadFile fileKey);
  match downloadFile client fileKey with
  | Returned p => mret p
  | Thrown e => throw e
  end.

(** *** Completion of the pending operations *)

(** What surfaces outside every promise chain. An exception thrown from the
    callback of [fs.writeFile] has no caller to catch it and ends the
    process. *)
Inductive Incident : Type :=
| UncaughtException (e : JsError)
| UnhandledRejection (e : JsError).

Definition write_file (path data : string) (d : FileSystem)
  : FileSystem * option Incident :=
  match writeFile_error d path with
  | Some err => (d, Some (UncaughtException err))
  | None =>
      ({| dirs := dirs d; files := <[path := data]> (files d);
          mkdirp_error := mkdirp_error d;
          writeFile_error := writeFile_error d |}, None)
  end.

Definition run_task (t : Task) (d : FileSystem)
  : FileSystem * option Incident :=
  match t with
  | WriteFile path data => write_file path data d
  | ThenWriteFile (Resolved resp) path => write_file path resp d
  | ThenWriteFile (Rejected e) _ => (d, Some (UnhandledRejection e))
  end.

(** The tasks complete in the order [order]; nothing completes after an
    uncaught exception. *)
Fixpoint settle (order : list Task) (d : FileSystem)
  : FileSystem * list Incident :=
  match order with
  | [] => (d, [])
  | t :: rest =>
      match run_task t d with
      | (d', None) => settle rest d'
      | (d', Some (UncaughtException e)) => (d', [UncaughtException e])
      | (d', Some (UnhandledRejection e)) =>
          let '(d'', incidents) := settle rest d' in
          (d'', UnhandledRejection e :: incidents)
      end
  end.

(** ** Sample clients, configurations and worlds *)

Module Samples.

Definition messages (l : Lang) (key : string) : string :=
  match l with en => "en:" +:+ key | ja => "ja:" +:+ key end.

Definition options : Option :=
  {| lang := en; proxy := ""; guestSpaceId := 0; destDir := "dest" |}.

Definition manifest : ImportCustomizeManifest := {| import_app := "1" |}.

Definition empty_disk : FileSystem :=
  {| dirs := ∅; files := ∅;
     mkdirp_error := fun _ => None; writeFile_error := fun _ => None |}.

(** A disk on which the manifest cannot be written. *)
Definition read_only_manifest : FileSystem :=
  {| dirs := ∅; files := ∅;
     mkdirp_error := fun _ => None;
     writeFile_error :=
       fun path =>
         if decide (path = "dest/customize-manifest.json")
         then Some (Error "EACCES") else None |}.

(** The caller's [status = { retryCount }] is the object at reference 0. *)
Definition world (count : Z) (d : FileSystem) : World :=
  {| heap := [{| retryCount := count |}]; disk := d; fetches := 0;
     trace := []; pending := [] |}.

Definition resp : GetAppCustomizeResp :=
  {| scope := ALL;
     desktop_js := [UploadedFile "k1" "a.js"; CDNFile "https://cdn/x.js"];
     desktop_css := [UploadedFile "k2" "a.css"];
     mobile_js := [] |}.


Definition content (fileKey : string) : Settled string :=
  Resolved ("content of " +:+ fileKey).

Definition serving (r : GetAppCustomizeResp) : KintoneApiClient :=
  {| getAppCustomize := fun _ _ => Returned (Resolved r);
     downloadFile := fun fileKey => Returned (content fileKey) |}.

(** [getAppCustomize] hands back a promise that is rejected with [e]. *)
Definition rejecting (e : JsError) : KintoneApiClient :=
  {| getAppCustomize := fun _ _ => Returned (Rejected e);
     downloadFile := fun fileKey => Returned (content fileKey) |}.

(** [getAppCustomize] throws [e] while it is being called. *)
Definition throwing (e : JsError) : KintoneApiClient :=
  {| getAppCustomize := fun _ _ => Thrown e;
     downloadFile := fun fileKey => Returned (content fileKey) |}.

End Samples.

(** ** More sample clients and disks *)

Module Cases.

Definition numbered (j : nat) : JsError :=
  Error (match j with 0 => "first" | 1 => "second" | _ => "third" end).

(** [getAppCustomize] throws on its first two calls. *)
Definition flaky (r : GetAppCustomizeResp) : KintoneApiClient :=
  {| getAppCustomize :=
       fun n _ =>
         if Nat.ltb n 2 then Thrown (numbered n) else Returned (Resolved r);
     downloadFile := fun fileKey => Returned (Samples.content fileKey) |}.

(** ... and then throws an authentication failure. *)
Definition refused_at_last : KintoneApiClient :=
  {| getAppCustomize :=
       fun n _ =>
         if Nat.ltb n 2 then Thrown (numbered n)
         else Thrown (AuthenticationError "401");
     downloadFile := fun fileKey => Returned (Samples.content fileKey) |}.

Definition never_answering : KintoneApiClient :=
  {| getAppCustomize := fun n _ => Thrown (numbered n);
     downloadFile := fun fileKey => Returned (Samples.content fileKey) |}.

(** A disk on which [path] cannot be created. *)
Definition without (path : string) : FileSystem :=
  {| dirs := ∅; files := ∅;
     mkdirp_error :=
       fun p => if decide (p = path) then Some (Error "EACCES") else None;
     writeFile_error := fun _ => None |}.

(** [downloadFile] throws for the key [k2]. *)
Definition throwing_download : KintoneApiClient :=
  {| getAppCustomize := fun _ _ => Returned (Resolved Samples.resp);
     downloadFile :=
       fun fileKey =>
         if decide (fileKey = "k2") then Thrown (Error "boom")
         else Returned (Samples.content fileKey) |}.

(** The download of [k1] is rejected. *)
Definition partly (fileKey : string) : Settled string :=
  if decide (fileKey = "k1") then Rejected (Error "404")
  else Samples.content fileKey.

Definition partly_serving : KintoneApiClient :=
  {| getAppCustomize := fun _ _ => Returned (Resolved Samples.resp);
     downloadFile := fun fileKey => Returned (partly fileKey) |}.


(** A disk that holds a manifest file, and one that holds a broken one. *)
Definition with_file (path text : string) : FileSystem :=
  {| dirs := ∅; files := {[path := text]};
     mkdirp_error := fun _ => None; writeFile_error := fun _ => None |}.

Definition parse (text : string) : Completion ImportCustomizeManifest :=
  if decide (text = "") then Thrown (Error "SyntaxError")
  else Returned {| import_app := "1" |}.

(** A parser that accepts the text [expected] and nothing else. *)
Definition accepting (expected : string) (parsed : ImportCustomizeManifest)
    (text : string) : Completion ImportCustomizeManifest :=
  if decide (text = expected) then Returned parsed
  else Thrown (Error "SyntaxError").

(** A platform on which every path below is the one name of its file. *)
Definition as_written (path : string) : string := path.

(** A display name that climbs out of [dest/desktop/js], and the
    resolution of the path it gives. *)
Definition climber : GetAppCustomizeResp :=
  {| scope := ALL;
     desktop_js := [UploadedFile "k1" "../../customize-manifest.json"];
     desktop_css := [];
     mobile_js := [] |}.

Definition climbing (path : string) : string :=
  if decide (path = "dest/desktop/js/../../customize-manifest.json")
  then "dest/customize-manifest.json" else path.

(** Two display names that differ in letter case, and a disk that ignores
    the case of a file name. *)
Definition two_cases : GetAppCustomizeResp :=
  {| scope := ALL;
     desktop_js := [UploadedFile "k1" "a.js"; UploadedFile "k2" "A.js"];
     desktop_css := [];
     mobile_js := [] |}.

Definition folding (path : string) : string :=
  if decide (path = "dest/desktop/js/A.js") then "dest/desktop/js/a.js"
  else path.

Definition connect (username password : string)
    (basicAuthUsername basicAuthPassword : option string) (domain : string)
    (options : Option) : KintoneApiClient :=
  never_answering.

End Cases.

(** ** The program *)

Definition inspect {A : Type} (a : A) : {b : A | a = b} := exist _ a eq_refl.

Section Importing.

(** [sep] of the [path] module: the separator of the platform. *)
Variable sep : string.

(** [Constans.MAX_RETRY_COUNT] and [getBoundMessage], from [./constants]
    and [./messages]; neither module is part of the sources at hand. *)
Variable MAX_RETRY_COUNT : Z.
Variable getBoundMessage : Lang -> string -> string.

(** *** [exportAsManifestFile], lines 86-128 *)

Definition toNameOrUrl (destDir : string) (f : CustomizeFile) : string :=
  match f with
  | UploadedFile _ name => destDir +:+ sep +:+ name
  | CDNFile url => url
  end.

Definition customizeJson (appId destRootDir : string)
    (resp : GetAppCustomizeResp) : CustomizeManifest :=
  {| app := appId;
     manifest_scope := scope resp;
     manifest_desktop_js :=
       map (toNameOrUrl (destRootDir +:+ sep +:+ "desktop" +:+ sep +:+ "js"))
           (desktop_js resp);
     manifest_desktop_css :=
       map (toNameOrUrl (destRootDir +:+ sep +:+ "desktop" +:+ sep +:+ "css"))
           (desktop_css resp);
     manifest_mobile_js :=
       map (toNameOrUrl (destRootDir +:+ sep +:+ "mobile" +:+ sep +:+ "js"))
           (mobile_js resp) |}.

Definition exportAsManifestFile (appId destRootDir : string)
    (resp : GetAppCustomizeResp) : Sync GetAppCustomizeResp :=
  present ← existsSync destRootDir;
  _ ← (if negb present then mkdirp_sync destRootDir else mret tt);
  _ ← fs_writeFile
        (destRootDir +:+ sep +:+ "customize-manifest.json")
        (JSON.stringify
           (manifest_to_JSON (customizeJson appId destRootDir resp)) 4);
  mret resp.

(** *** [downloadAndWriteFile] and [downloadCustomizeFiles],
        lines 130-173 *)

Definition downloadAndWriteFile (kintoneApiClient : KintoneApiClient)
    (destDir : string) (f : CustomizeFile) : Sync unit :=
  match f with
  | CDNFile _ => mret tt
  | UploadedFile fileKey name =>
      p ← call_downloadFile kintoneApiClient fileKey;
      spawn (ThenWriteFile p (destDir +:+ sep +:+ name))
  end.

Definition downloadCustomizeFiles (kintoneApiClient : KintoneApiClient)
    (appId destDir : string) (resp : GetAppCustomizeResp) : Sync unit :=
  _ ← forEach mkdirp_sync
        [ destDir +:+ sep +:+ "desktop" +:+ sep +:+ "js" +:+ sep;
          destDir +:+ sep +:+ "desktop" +:+ sep +:+ "css" +:+ sep;
          destDir +:+ sep +:+ "mobile" +:+ sep +:+ "js" +:+ sep ];
  _ ← forEach
        (downloadAndWriteFile kintoneApiClient
           (destDir +:+ sep +:+ "desktop" +:+ sep +:+ "js"))
        (desktop_js resp);
  _ ← forEach
        (downloadAndWriteFile kintoneApiClient
           (destDir +:+ sep +:+ "desktop" +:+ sep +:+ "css"))
        (desktop_css resp);
  forEach
    (downloadAndWriteFile kintoneApiClient
       (destDir +:+ sep +:+ "mobile" +:+ sep +:+ "js"))
    (mobile_js resp).

(** *** [importCustomizeSetting], lines 42-84 *)

(** The [try] block, lines 54-65. The call of [getAppCustomize] runs
    inside it, and so do the three calls that build the promise chain;
    the block then leaves the function through [return] with the chain
    as its value. The callbacks of the chain run once the promise of
    [getAppCustomize] has settled: what they throw rejects the chain,
    it is not an exception of the block. The block completes with
    [Thrown] only when [getAppCustomize] itself throws. *)
Definition try_block (kintoneApiClient : KintoneApiClient)
    (appId : string) (options : Option) : Sync (Settled unit) :=
  fun w =>
    match call_getAppCustomize kintoneApiClient appId w with
    | (Thrown e, w1) => (Thrown e, w1)
    | (Returned appCustomize, w1) =>
        let '(p1, w2) :=
          then_ appCustomize
            (fun resp => exportAsManifestFile appId (destDir options) resp)
            w1 in
        let '(p2, w3) :=
          then_ p1
            (fun resp =>
               downloadCustomizeFiles kintoneApiClient appId
                 (destDir options) resp)
            w2 in
        let '(p3, w4) := catch_ p2 (fun e => throw e) w3 in
        (Returned p3, w4)
    end.

(** Modelled from the spec: [wait] of [./util] is not part of the sources
    at hand; section 4.1 of the specification has it suspend the call for
    the fixed delay. With it, [await wait(1000); console.log(m("E_Retry"))],
    lines 72-73. *)
Definition announce_retry (options : Option) (w : World) : World :=
  snd ((_ ← emit (EvWait 1000);
        emit (EvConsoleLog (getBoundMessage (lang options) "E_Retry"))) w).

(** Retries left when the call starts, the measure of the recursion. *)
Definition budget (status : loc) (w : World) : nat :=
  match heap w !! status with
  | Some s => Z.to_nat (MAX_RETRY_COUNT - retryCount s)
  | None => 0
  end.

(** A promise returned from an [async] function settles the promise of
    the call; an exception of the [catch] block rejects it. Reading
    [retryCount] off a reference that holds no object is a [TypeError]. *)
Equations? importCustomizeSetting (kintoneApiClient : KintoneApiClient)
    (manifest : ImportCustomizeManifest) (status : loc) (options : Option)
    (w : World) : Settled unit * World by wf (budget status w) lt :=
  importCustomizeSetting kintoneApiClient manifest status options w
    with inspect (heap w !! status) := {
    | exist _ None _ := (Rejected (Error "TypeError"), w)
    | exist _ (Some s) Hstatus
        with try_block kintoneApiClient (import_app manifest) options w := {
        | (Returned chain, w1) := (chain, w1)
        | (Thrown e, w1) with isAuthenticationError e := {
            | true :=
                (Rejected
                   (Error (getBoundMessage (lang options) "E_Authentication")),
                 w1)
            | false
                with inspect (retryCount s + 1 <? MAX_RETRY_COUNT)%Z := {
                | exist _ true Hbelow :=
                    importCustomizeSetting kintoneApiClient manifest
                      (fst (new_status {| retryCount := retryCount s + 1 |}
                              (announce_retry options w1)))
                      options
                      (snd (new_status {| retryCount := retryCount s + 1 |}
                              (announce_retry options w1)))
                | exist _ false _ := (Rejected e, w1) } } } }.
Proof.
  unfold budget. rewrite Hstatus. cbn.
  rewrite lookup_app_r by lia. rewrite Nat.sub_diag. cbn.
  apply Z.ltb_lt in Hbelow. lia.
Qed.


(** *** The claims' words, as definitions to compare the program with *)

(** Where the specification places the file behind a [FileRef] of
    [category]/[subcategory]; a [UrlRef] stands for itself. *)
Definition local_entry (destRootDir category subcategory : string)
    (f : CustomizeFile) : string :=
  match f with
  | UploadedFile _ name =>
      destRootDir +:+ sep +:+ category +:+ sep +:+ subcategory +:+ sep +:+
      name
  | CDNFile url => url
  end.

(** The persisted text line by line: every nesting level is indented by
    four more spaces than the one around it. *)
Definition array_layout (indent : nat) (entries : list string) : string :=
  match entries with
  | [] => "[]"
  | _ =>
      "[" +:+ LF +:+
      JSON.join ("," +:+ LF)
        (map (fun entry =>
                JSON.spaces (indent + 4) +:+ JSON.QuoteJSONString entry)
             entries) +:+
      LF +:+ JSON.spaces indent +:+ "]"
  end.

Definition four_space_layout (m : CustomizeManifest) : string :=
  "{" +:+ LF +:+
  JSON.spaces 4 +:+ DQUOTE +:+ "app" +:+ DQUOTE +:+ ": " +:+
    JSON.QuoteJSONString (app m) +:+ "," +:+ LF +:+
  JSON.spaces 4 +:+ DQUOTE +:+ "scope" +:+ DQUOTE +:+ ": " +:+
    JSON.QuoteJSONString (Scope_to_string (manifest_scope m)) +:+ "," +:+
    LF +:+
  JSON.spaces 4 +:+ DQUOTE +:+ "desktop" +:+ DQUOTE +:+ ": {" +:+ LF +:+
  JSON.spaces 8 +:+ DQUOTE +:+ "js" +:+ DQUOTE +:+ ": " +:+
    array_layout 8 (manifest_desktop_js m) +:+ "," +:+ LF +:+
  JSON.spaces 8 +:+ DQUOTE +:+ "css" +:+ DQUOTE +:+ ": " +:+
    array_layout 8 (manifest_desktop_css m) +:+ LF +:+
  JSON.spaces 4 +:+ "}," +:+ LF +:+
  JSON.spaces 4 +:+ DQUOTE +:+ "mobile" +:+ DQUOTE +:+ ": {" +:+ LF +:+
  JSON.spaces 8 +:+ DQUOTE +:+ "js" +:+ DQUOTE +:+ ": " +:+
    array_layout 8 (manifest_mobile_js m) +:+ LF +:+
  JSON.spaces 4 +:+ "}" +:+ LF +:+
  "}".

(** The calls of [downloadFile] a list of entries gives rise to, and the
    pending operations it leaves, when [download fileKey] is the promise
    the client hands back for [fileKey]: nothing for a [UrlRef]. *)
Definition download_calls (entries : list CustomizeFile) : list Event :=
  flat_map
    (fun f =>
       match f with
       | UploadedFile fileKey _ => [EvDownloadFile fileKey]
       | CDNFile _ => []
       end)
    entries.

Definition download_tasks (download : string -> Settled string)
    (destDir : string) (entries : list CustomizeFile) : list Task :=
  flat_map
    (fun f =>
       match f with
       | UploadedFile fileKey name =>
           [ThenWriteFile (download fileKey) (destDir +:+ sep +:+ name)]
       | CDNFile _ => []
       end)
    entries.

(** The world once [getAppCustomize] has been called. *)
Definition fetched (appId : string) (w : World) : World :=
  {| heap := heap w; disk := disk w; fetches := S (fetches w);
     trace := trace w ++ [EvGetAppCustomize appId]; pending := pending w |}.

(** Code that leaves every [status] object as it found it. *)
Definition keeps_heap {A : Type} (c : Sync A) : Prop :=
  forall w : World, heap (snd (c w)) = heap w.

(** What one attempt in which nothing fails does, sees and leaves
    pending. *)
Definition import_events (appId destDir : string)
    (resp : GetAppCustomizeResp) (present : bool) : list Event :=
  [EvGetAppCustomize appId] ++
  (if present then [] else [EvMkdirpSync destDir]) ++
  [EvWriteFile (destDir +:+ sep +:+ "customize-manifest.json")
     (JSON.stringify (manifest_to_JSON (customizeJson appId destDir resp)) 4);
   EvMkdirpSync (destDir +:+ sep +:+ "desktop" +:+ sep +:+ "js" +:+ sep);
   EvMkdirpSync (destDir +:+ sep +:+ "desktop" +:+ sep +:+ "css" +:+ sep);
   EvMkdirpSync (destDir +:+ sep +:+ "mobile" +:+ sep +:+ "js" +:+ sep)] ++
  download_calls (desktop_js resp) ++
  download_calls (desktop_css resp) ++
  download_calls (mobile_js resp).

Definition import_tasks (download : string -> Settled string)
    (appId destDir : string) (resp : GetAppCustomizeResp) : list Task :=
  WriteFile (destDir +:+ sep +:+ "customize-manifest.json")
    (JSON.stringify (manifest_to_JSON (customizeJson appId destDir resp)) 4)
  :: download_tasks download
       (destDir +:+ sep +:+ "desktop" +:+ sep +:+ "js") (desktop_js resp) ++
     download_tasks download
       (destDir +:+ sep +:+ "desktop" +:+ sep +:+ "css") (desktop_css resp) ++
     download_tasks download
       (destDir +:+ sep +:+ "mobile" +:+ sep +:+ "js") (mobile_js resp).

Definition import_disk (destDir : string) (d : FileSystem) : FileSystem :=
  add_dir (destDir +:+ sep +:+ "mobile" +:+ sep +:+ "js" +:+ sep)
    (add_dir (destDir +:+ sep +:+ "desktop" +:+ sep +:+ "css" +:+ sep)
       (add_dir (destDir +:+ sep +:+ "desktop" +:+ sep +:+ "js" +:+ sep)
          (if path_exists destDir d then d else add_dir destDir d))).

(** The write a pending operation performs when it completes, if any. *)
Definition task_write (t : Task) : option (string * string) :=
  match t with
  | WriteFile path data => Some (path, data)
  | ThenWriteFile (Resolved resp) path => Some (path, resp)
  | ThenWriteFile (Rejected _) _ => None
  end.

Definition apply_write (m : gmap string string) (t : Task)
  : gmap string string :=
  match task_write t with
  | Some (path, data) => <[path := data]> m
  | None => m
  end.

(** The content of the last write to [path] among [order]. *)
Definition last_write (path : string) (order : list Task) : option string :=
  foldl
    (fun acc t =>
       match task_write t with
       | Some (p, data) => if decide (p = path) then Some data else acc
       | None => acc
       end)
    None order.

(** No two pending writes to one path differ in what they write. *)
Definition consistent (tasks : list Task) : Prop :=
  forall (t1 t2 : Task) (path data1 data2 : string),
    t1 ∈ tasks -> t2 ∈ tasks ->
    task_write t1 = Some (path, data1) ->
    task_write t2 = Some (path, data2) ->
    data1 = data2.

(** Entries of one list that share a display name have the same
    download. *)
Definition same_name_same_content (download : string -> Settled string)
    (entries : list CustomizeFile) : Prop :=
  forall fileKey1 fileKey2 name : string,
    UploadedFile fileKey1 name ∈ entries ->
    UploadedFile fileKey2 name ∈ entries ->
    download fileKey1 = download fileKey2.

(** Idempotence of the pipeline: the files left once everything pending
    has completed are the same after two runs as after one, in whatever
    order the pending operations of either complete. *)
Definition pipeline_idempotent (kintoneApiClient : KintoneApiClient)
    (manifest : ImportCustomizeManifest) (status : loc) (options : Option)
    (w : World) : Prop :=
  let once :=
    snd (importCustomizeSetting kintoneApiClient manifest status options w) in
  let twice :=
    snd (importCustomizeSetting kintoneApiClient manifest status options
           once) in
  forall order1 order2 : list Task,
    order1 ≡ₚ pending once ->
    order2 ≡ₚ pending twice ->
    files (fst (settle order2 (disk twice))) =
    files (fst (settle order1 (disk once))).

(** Where each pending write of an attempt goes: slot 0 is the manifest,
    slots 1, 2 and 3 are the three lists. *)
Definition target (destDir : string) (slot : nat) (name : string) : string :=
  match slot with
  | 0 => destDir +:+ sep +:+ "customize-manifest.json"
  | 1 => (destDir +:+ sep +:+ "desktop" +:+ sep +:+ "js") +:+ sep +:+ name
  | 2 => (destDir +:+ sep +:+ "desktop" +:+ sep +:+ "css") +:+ sep +:+ name
  | _ => (destDir +:+ sep +:+ "mobile" +:+ sep +:+ "js") +:+ sep +:+ name
  end.

Definition entries_of (resp : GetAppCustomizeResp) (slot : nat)
  : list CustomizeFile :=
  match slot with
  | 1 => desktop_js resp
  | 2 => desktop_css resp
  | _ => mobile_js resp
  end.

(** *** Paths and the files they name *)

(** [fs.writeFile] writes to the file its path names, and two different
    strings can name one file: [a.js] and [./a.js], a path through [..]
    and the path it leads to, two spellings that differ in letter case on
    a disk that ignores it.  [realpath] stands for the resolution the
    platform applies to a path: it gives the path under which the disk
    keeps the file, and two paths name one file exactly when it sends
    them to the same one. *)
Definition resolve_task (realpath : string -> string) (t : Task) : Task :=
  match t with
  | WriteFile path data => WriteFile (realpath path) data
  | ThenWriteFile download path => ThenWriteFile download (realpath path)
  end.

(** The pending operations complete in the order [order], each write on
    the file its path names. *)
Definition complete (realpath : string -> string) (order : list Task)
    (d : FileSystem) : FileSystem * list Incident :=
  settle (resolve_task realpath <$> order) d.

(** No two pending writes that reach one file differ in what they
    write. *)
Definition agree_on (realpath : string -> string) (tasks : list Task)
  : Prop :=
  forall (t1 t2 : Task) (path1 path2 data1 data2 : string),
    t1 ∈ tasks -> t2 ∈ tasks ->
    task_write t1 = Some (path1, data1) ->
    task_write t2 = Some (path2, data2) ->
    realpath path1 = realpath path2 ->
    data1 = data2.

(** No uploaded file is written to the file of the manifest. *)
Definition manifest_apart (realpath : string -> string) (destDir : string)
    (resp : GetAppCustomizeResp) : Prop :=
  forall (slot : nat) (fileKey name : string),
    1 <= slot <= 3 ->
    UploadedFile fileKey name ∈ entries_of resp slot ->
    realpath (target destDir slot name) <>
    realpath (destDir +:+ sep +:+ "customize-manifest.json").

(** Idempotence of the pipeline on the files themselves: the content of
    every file once everything pending has completed is the same after
    two runs as after one, in whatever order the pending operations of
    either complete. [pipeline_idempotent] is the case in which every
    path is the one name of its file. *)
Definition pipeline_idempotent_on (realpath : string -> string)
    (kintoneApiClient : KintoneApiClient)
    (manifest : ImportCustomizeManifest) (status : loc) (options : Option)
    (w : World) : Prop :=
  let once :=
    snd (importCustomizeSetting kintoneApiClient manifest status options w) in
  let twice :=
    snd (importCustomizeSetting kintoneApiClient manifest status options
           once) in
  forall order1 order2 : list Task,
    order1 ≡ₚ pending once ->
    order2 ≡ₚ pending twice ->
    files (fst (complete realpath order2 (disk twice))) =
    files (fst (complete realpath order1 (disk once))).

(** *** Counting what a run does *)

(** The events of the two stages; the orchestrator alone fetches, waits
    and prints. *)
Definition stage_event (ev : Event) : bool :=
  match ev with
  | EvMkdirpSync _ | EvWriteFile _ _ | EvDownloadFile _ => true
  | EvGetAppCustomize _ | EvWait _ | EvConsoleLog _ => false
  end.

Definition is_fetch (ev : Event) : bool :=
  match ev with EvGetAppCustomize _ => true | _ => false end.

Definition is_wait (ev : Event) : bool :=
  match ev with EvWait _ => true | _ => false end.

Definition is_notice (ev : Event) : bool :=
  match ev with EvConsoleLog _ => true | _ => false end.


Definition count (p : Event -> bool) (evs : list Event) : nat :=
  length (List.filter p evs).

(** Milliseconds spent in [wait]. *)
Fixpoint waited (evs : list Event) : Z :=
  match evs with
  | [] => 0
  | EvWait ms :: rest => ms + waited rest
  | _ :: rest => waited rest
  end.

(** [w'] is [w] with [evs] and [tasks] added and nothing taken away: the
    status objects, the number of fetches, the files and the failing paths
    are those of [w], and no directory is lost. *)
Definition advances (w w' : World) (evs : list Event) (tasks : list Task)
  : Prop :=
  heap w' = heap w /\
  fetches w' = fetches w /\
  trace w' = trace w ++ evs /\
  pending w' = pending w ++ tasks /\
  files (disk w') = files (disk w) /\
  dirs (disk w) ⊆ dirs (disk w') /\
  mkdirp_error (disk w') = mkdirp_error (disk w) /\
  writeFile_error (disk w') = writeFile_error (disk w).

Definition stage {A : Type} (c : Sync A) : Prop :=
  forall w : World,
    exists (evs : list Event) (tasks : list Task),
      advances w (snd (c w)) evs tasks /\ forallb stage_event evs = true.

(** What a call of [importCustomizeSetting] that starts in [w] with
    [budget] retries left has done when it settles in [w']. *)
Definition run_summary (budget : nat) (w w' : World) : Prop :=
  exists (evs : list Event) (tasks : list Task),
    trace w' = trace w ++ evs /\
    pending w' = pending w ++ tasks /\
    files (disk w') = files (disk w) /\
    dirs (disk w) ⊆ dirs (disk w') /\
    mkdirp_error (disk w') = mkdirp_error (disk w) /\
    writeFile_error (disk w') = writeFile_error (disk w) /\
    fetches w' = fetches w + count is_fetch evs /\
    length (heap w') = length (heap w) + count is_wait evs /\
    count is_fetch evs = 1 + count is_wait evs /\
    count is_notice evs = count is_wait evs /\
    waited evs = (1000 * Z.of_nat (count is_wait evs))%Z /\
    count is_wait evs < Nat.max 1 budget.

(** The events and the status objects of [k] retries in a row. *)
Fixpoint retry_events (appId notice : string) (k : nat) : list Event :=
  match k with
  | 0 => []
  | S k =>
      [EvGetAppCustomize appId; EvWait 1000; EvConsoleLog notice] ++
      retry_events appId notice k
  end.

Fixpoint retry_statuses (count : Z) (k : nat) : list Status :=
  match k with
  | 0 => []
  | S k => {| retryCount := count + 1 |} :: retry_statuses (count + 1) k
  end.

(** The path a pending operation writes to. *)
Definition task_path (t : Task) : string :=
  match t with
  | WriteFile path _ => path
  | ThenWriteFile _ path => path
  end.

(** The local path the manifest gives a [FileRef]; nothing for a
    [UrlRef]. *)
Definition file_path (destDir : string) (f : CustomizeFile) : option string :=
  match f with
  | UploadedFile _ _ => Some (toNameOrUrl destDir f)
  | CDNFile _ => None
  end.

(** A remote configuration with other file keys. *)
Definition rekey_file (key : string -> string) (f : CustomizeFile)
  : CustomizeFile :=
  match f with
  | UploadedFile fileKey name => UploadedFile (key fileKey) name
  | CDNFile url => CDNFile url
  end.

Definition rekey (key : string -> string) (resp : GetAppCustomizeResp)
  : GetAppCustomizeResp :=
  {| scope := scope resp;
     desktop_js := map (rekey_file key) (desktop_js resp);
     desktop_css := map (rekey_file key) (desktop_css resp);
     mobile_js := map (rekey_file key) (mobile_js resp) |}.



(** The unhandled rejections a list of pending operations gives rise to. *)
Definition rejections (order : list Task) : list Incident :=
  flat_map
    (fun t =>
       match t with
       | ThenWriteFile (Rejected e) _ => [UnhandledRejection e]
       | _ => []
       end)
    order.

(** *** [runImport], lines 175-200 *)

(** [fs.readFileSync(path, "utf8")]: the content of the file, or the
    exception Node raises for a path that holds no file. *)
Definition readFileSync (path : string) : Sync string :=
  fun w =>
    match files (disk w) !! path with
    | Some text => (Returned text, w)
    | None =>
        (Thrown
           (Error ("ENOENT: no such file or directory, open '" +:+ path +:+
                   "'")),
         w)
    end.

Section Running.

(** [JSON.parse] followed by the unchecked reading of its result as an
    [ImportCustomizeManifest]: the built-in is taken as it comes. *)
Variable JSON_parse : string -> Completion ImportCustomizeManifest.

(** Modelled from the spec: the constructor of [KintoneApiClient] is not
    part of the sources at hand; it is given the credentials, the domain
    and the options and yields the client the import talks to. *)
Variable new_KintoneApiClient :
  string -> string -> option string -> option string -> string -> Option ->
  KintoneApiClient.

Definition runImport (domain username password : string)
    (basicAuthUsername basicAuthPassword : option string)
    (manifestFile : string) (options : Option) : Async unit :=
  fun w =>
    match readFileSync manifestFile w with
    | (Thrown e, w1) => (Rejected e, w1)
    | (Returned text, w1) =>
        match JSON_parse text with
        | Thrown e => (Rejected e, w1)
        | Returned manifest =>
            let '(status, w2) := new_status {| retryCount := 0 |} w1 in
            let kintoneApiClient :=
              new_KintoneApiClient username password basicAuthUsername
                basicAuthPassword domain options in
            importCustomizeSetting kintoneApiClient manifest status options
              w2
        end
    end.

End Running.

(** The reference passed to the call that follows [k] retries: the
    caller's when there was none, the last object created otherwise. *)
Definition nth_status (status : loc) (allocated k : nat) : loc :=
  match k with
  | 0 => status
  | S k' => allocated + k'
  end.

(** The world after [k] retries of a call started in [w] with
    [retryCount = count]. *)
Definition after_retries (appId notice : string) (count : Z) (k : nat)
    (w : World) : World :=
  {| heap := heap w ++ retry_statuses count k;
     disk := disk w;
     fetches := fetches w + k;
     trace := trace w ++ retry_events appId notice k;
     pending := pending w |}.

(** ** Facts *)

Lemma append_assoc (a b c : string) : (a +:+ b) +:+ c = a +:+ b +:+ c.
Proof.
  induction a as [|x a IH]; [reflexivity|].
  change (String x ((a +:+ b) +:+ c) = String x (a +:+ b +:+ c)).
  now rewrite IH.
Qed.

Lemma append_nil_r (a : string) : a +:+ "" = a.
Proof.
  induction a as [|x a IH]; [reflexivity|].
  change (String x (a +:+ "") = String x a). now rewrite IH.
Qed.

(** *** Running the primitives *)

Lemma bind_run {A B : Type} (c : Sync A) (k : A -> Sync B) (w : World) :
  (c ≫= k) w =
  match c w with
  | (Returned a, w') => k a w'
  | (Thrown e, w') => (Thrown e, w')
  end.
Proof. reflexivity. Qed.

Lemma mkdirp_sync_run path w :
  mkdirp_sync path w =
  match mkdirp_error (disk w) path with
  | Some e =>
      (Thrown e,
       {| heap := heap w; disk := disk w; fetches := fetches w;
          trace := trace w ++ [EvMkdirpSync path]; pending := pending w |})
  | None =>
      (Returned tt,
       {| heap := heap w; disk := add_dir path (disk w);
          fetches := fetches w;
          trace := trace w ++ [EvMkdirpSync path]; pending := pending w |})
  end.
Proof.
  unfold mkdirp_sync. rewrite bind_run. unfold emit, make_dir, set_disk.
  cbn [disk heap fetches trace pending].
  destruct (mkdirp_error (disk w) path); reflexivity.
Qed.

Lemma fs_writeFile_run path data w :
  fs_writeFile path data w =
  (Returned tt,
   {| heap := heap w; disk := disk w; fetches := fetches w;
      trace := trace w ++ [EvWriteFile path data];
      pending := pending w ++ [WriteFile path data] |}).
Proof. reflexivity. Qed.

Lemma path_exists_add_dir path d : path_exists path (add_dir path d) = true.
Proof.
  unfold path_exists, add_dir. cbn [dirs files].
  apply bool_decide_eq_true. left. set_solver.
Qed.

(** *** The manifest writer *)

Lemma exportAsManifestFile_run appId destRootDir resp w :
  exportAsManifestFile appId destRootDir resp w =
  let path := destRootDir +:+ sep +:+ "customize-manifest.json" in
  let text :=
    JSON.stringify
      (manifest_to_JSON (customizeJson appId destRootDir resp)) 4 in
  if path_exists destRootDir (disk w) then
    (Returned resp,
     {| heap := heap w; disk := disk w; fetches := fetches w;
        trace := trace w ++ [EvWriteFile path text];
        pending := pending w ++ [WriteFile path text] |})
  else
    match mkdirp_error (disk w) destRootDir with
    | Some e =>
        (Thrown e,
         {| heap := heap w; disk := disk w; fetches := fetches w;
            trace := trace w ++ [EvMkdirpSync destRootDir];
            pending := pending w |})
    | None =>
        (Returned resp,
         {| heap := heap w; disk := add_dir destRootDir (disk w);
            fetches := fetches w;
            trace := trace w ++ [EvMkdirpSync destRootDir;
                                 EvWriteFile path text];
            pending := pending w ++ [WriteFile path text] |})
    end.
Proof.
  unfold exportAsManifestFile.
  set (text := JSON.stringify _ _). clearbody text.
  rewrite bind_run. unfold existsSync.
  destruct (path_exists destRootDir (disk w)) eqn:Hpresent; cbn [negb].
  - rewrite bind_run. cbn [mret Sync_ret].
    rewrite bind_run, fs_writeFile_run. reflexivity.
  - rewrite bind_run, mkdirp_sync_run.
    destruct (mkdirp_error (disk w) destRootDir); [reflexivity|].
    rewrite bind_run, fs_writeFile_run. cbn [trace pending heap disk fetches].
    rewrite <- app_assoc. reflexivity.
Qed.

Lemma toNameOrUrl_local_entry destRootDir category subcategory f :
  toNameOrUrl (destRootDir +:+ sep +:+ category +:+ sep +:+ subcategory) f =
  local_entry destRootDir category subcategory f.
Proof.
  destruct f as [fileKey name|url]; unfold toNameOrUrl, local_entry;
    [|reflexivity].
  now rewrite !append_assoc.
Qed.

(** C4. The manifest that is persisted takes its [app] from the call and
    its [scope] from the remote configuration; each of its three lists
    is the remote list entry by entry, in the same order and of the same
    length, with a [FileRef] replaced by
    [destRootDir/<category>/<subcategory>/<name>] and a [UrlRef] by its
    URL. *)
Theorem customizeJson_entries (appId destRootDir : string)
    (resp : GetAppCustomizeResp) :
  let manifest := customizeJson appId destRootDir resp in
  app manifest = appId /\
  manifest_scope manifest = scope resp /\
  (manifest_desktop_js manifest =
     map (local_entry destRootDir "desktop" "js") (desktop_js resp) /\
   manifest_desktop_css manifest =
     map (local_entry destRootDir "desktop" "css") (desktop_css resp) /\
   manifest_mobile_js manifest =
     map (local_entry destRootDir "mobile" "js") (mobile_js resp)) /\
  (length (manifest_desktop_js manifest) = length (desktop_js resp) /\
   length (manifest_desktop_css manifest) = length (desktop_css resp) /\
   length (manifest_mobile_js manifest) = length (mobile_js resp)) /\
  (forall i : nat,
     manifest_desktop_js manifest !! i =
       local_entry destRootDir "desktop" "js" <$> desktop_js resp !! i /\
     manifest_desktop_css manifest !! i =
       local_entry destRootDir "desktop" "css" <$> desktop_css resp !! i /\
     manifest_mobile_js manifest !! i =
       local_entry destRootDir "mobile" "js" <$> mobile_js resp !! i).
Proof.
  cbn zeta. unfold customizeJson. cbn [app manifest_scope manifest_desktop_js
    manifest_desktop_css manifest_mobile_js].
  assert (Hmap : forall category subcategory l,
             map (toNameOrUrl (destRootDir +:+ sep +:+ category +:+ sep +:+
                               subcategory)) l =
             map (local_entry destRootDir category subcategory) l).
  { intros. apply map_ext. intros. apply toNameOrUrl_local_entry. }
  rewrite !Hmap. repeat split; rewrite ?length_map, ?list_lookup_fmap;
    reflexivity.
Qed.

(** C8. [exportAsManifestFile] hands back the very [resp] it was given,
    for every [appId], [destRootDir] and remote configuration; the one
    way it can end otherwise is the exception of [mkdirp.sync] when the
    directory is missing and cannot be created. *)
Theorem exportAsManifestFile_returns_input (appId destRootDir : string)
    (resp : GetAppCustomizeResp) (w : World) :
  fst (exportAsManifestFile appId destRootDir resp w) =
  match path_exists destRootDir (disk w),
        mkdirp_error (disk w) destRootDir with
  | false, Some e => Thrown e
  | _, _ => Returned resp
  end.
Proof.
  rewrite exportAsManifestFile_run. cbn zeta.
  destruct (path_exists destRootDir (disk w)); [reflexivity|].
  destruct (mkdirp_error (disk w) destRootDir); reflexivity.
Qed.

(** *** The persisted text *)

Lemma join_indent (indent : string) (parts : list string) :
  parts <> [] ->
  indent +:+ JSON.join ("," +:+ LF +:+ indent) parts =
  JSON.join ("," +:+ LF) (map (String.append indent) parts).
Proof.
  induction parts as [|p rest IH]; [congruence|]. intros _.
  destruct rest as [|q rest]; [reflexivity|].
  change (indent +:+ p +:+ ("," +:+ LF +:+ indent) +:+
            JSON.join ("," +:+ LF +:+ indent) (q :: rest) =
          (indent +:+ p) +:+ ("," +:+ LF) +:+
            JSON.join ("," +:+ LF) (map (String.append indent) (q :: rest))).
  rewrite <- IH by congruence. now rewrite !append_assoc.
Qed.

Lemma spaces_add (n k : nat) :
  JSON.spaces n +:+ JSON.spaces k = JSON.spaces (n + k).
Proof.
  induction n as [|n IH]; [reflexivity|].
  change (String " " (JSON.spaces n +:+ JSON.spaces k) =
          String " " (JSON.spaces (n + k))).
  now rewrite IH.
Qed.

Lemma serialize_entries (indent : nat) (entries : list string) :
  JSON.SerializeJSONProperty (JSON.spaces 4) (JSON.spaces indent)
    (JSON.Arr (map JSON.Str entries)) =
  array_layout indent entries.
Proof.
  cbn [JSON.SerializeJSONProperty]. rewrite map_map.
  cbn [JSON.SerializeJSONProperty].
  destruct entries as [|e entries]; [reflexivity|].
  unfold JSON.wrap, array_layout.
  set (l := e :: entries).
  cbn [map]. fold (map JSON.QuoteJSONString l).
  change (JSON.is_empty (JSON.spaces 4)) with false. cbv iota.
  rewrite spaces_add.
  rewrite <- (map_map JSON.QuoteJSONString
                (String.append (JSON.spaces (indent + 4)))).
  rewrite <- join_indent by (subst l; discriminate).
  now rewrite !append_assoc.
Qed.

Lemma serialize_members (gap indent : string)
    (members : list (string * JSON.value)) :
  JSON.SerializeJSONProperty gap indent (JSON.Obj members) =
  JSON.wrap "{" "}" gap indent (indent +:+ gap)
    (map (fun kv : string * JSON.value =>
            JSON.QuoteJSONString (fst kv) +:+ ":" +:+
            (if JSON.is_empty gap then "" else " ") +:+
            JSON.SerializeJSONProperty gap (indent +:+ gap) (snd kv))
         members).
Proof. reflexivity. Qed.

Lemma serialize_string (gap indent s : string) :
  JSON.SerializeJSONProperty gap indent (JSON.Str s) =
  JSON.QuoteJSONString s.
Proof. reflexivity. Qed.

Lemma stringify_four_space_layout (m : CustomizeManifest) :
  JSON.stringify (manifest_to_JSON m) 4 = four_space_layout m.
Proof.
  unfold JSON.stringify, manifest_to_JSON, four_space_layout.
  change (JSON.spaces (Nat.min 10 4)) with (JSON.spaces 4).
  rewrite serialize_members. cbn [map fst snd].
  rewrite !serialize_members. cbn [map fst snd].
  rewrite !serialize_string.
  change (("" +:+ JSON.spaces 4) +:+ JSON.spaces 4) with (JSON.spaces 8).
  rewrite !serialize_entries.
  unfold JSON.wrap. change (JSON.is_empty (JSON.spaces 4)) with false.
  cbv iota. cbn [JSON.join].
  rewrite !append_assoc.
  reflexivity.
Qed.

(** C5. When [destRootDir] exists or can be created, the manifest writer
    returns with the directory in place, created (by [mkdirp.sync], and
    only if it was missing) before [fs.writeFile] is called; the call
    writes [destRootDir/customize-manifest.json], its data is
    [JSON.stringify(customizeJson, null, 4)], which is the text laid out
    with four spaces per nesting level, and once the write completes the
    file holds that text whatever it held before. *)
Theorem exportAsManifestFile_persists (appId destRootDir : string)
    (resp : GetAppCustomizeResp) (w : World) :
  let path := destRootDir +:+ sep +:+ "customize-manifest.json" in
  let text :=
    JSON.stringify
      (manifest_to_JSON (customizeJson appId destRootDir resp)) 4 in
  path_exists destRootDir (disk w) = true \/
    mkdirp_error (disk w) destRootDir = None ->
  exists w' : World,
    exportAsManifestFile appId destRootDir resp w = (Returned resp, w') /\
    path_exists destRootDir (disk w') = true /\
    trace w' =
      trace w ++
      (if path_exists destRootDir (disk w) then []
       else [EvMkdirpSync destRootDir]) ++
      [EvWriteFile path text] /\
    pending w' = pending w ++ [WriteFile path text] /\
    text = four_space_layout (customizeJson appId destRootDir resp) /\
    forall d : FileSystem,
      writeFile_error d path = None ->
      files (fst (run_task (WriteFile path text) d)) =
      <[path := text]> (files d).
Proof.
  intros path text Hdir. rewrite exportAsManifestFile_run. cbn zeta.
  fold path. fold text.
  assert (Hwrite : forall d : FileSystem,
             writeFile_error d path = None ->
             files (fst (run_task (WriteFile path text) d)) =
             <[path := text]> (files d)).
  { intros d Hd. cbn [run_task]. unfold write_file. now rewrite Hd. }
  destruct (path_exists destRootDir (disk w)) eqn:Hpresent.
  - eexists. split; [reflexivity|]. cbn [disk trace pending].
    repeat split; try assumption.
    apply stringify_four_space_layout.
  - destruct Hdir as [Hdir|Hdir]; [discriminate|]. rewrite Hdir.
    eexists. split; [reflexivity|]. cbn [disk trace pending].
    repeat split; try assumption.
    + apply path_exists_add_dir.
    + apply stringify_four_space_layout.
Qed.


(** *** The asset downloader *)

Section Downloads.

Variable kintoneApiClient : KintoneApiClient.
Variable download : string -> Settled string.
Hypothesis downloadFile_returns :
  forall fileKey : string,
    downloadFile kintoneApiClient fileKey = Returned (download fileKey).

Lemma downloadAndWriteFile_run destDir f w :
  downloadAndWriteFile kintoneApiClient destDir f w =
  (Returned tt,
   {| heap := heap w; disk := disk w; fetches := fetches w;
      trace := trace w ++ download_calls [f];
      pending := pending w ++ download_tasks download destDir [f] |}).
Proof.
  destruct f as [fileKey name|url]; cbn.
  - unfold call_downloadFile. rewrite downloadFile_returns. reflexivity.
  - rewrite !app_nil_r. now destruct w.
Qed.

Lemma forEach_download_run destDir entries w :
  forEach (downloadAndWriteFile kintoneApiClient destDir) entries w =
  (Returned tt,
   {| heap := heap w; disk := disk w; fetches := fetches w;
      trace := trace w ++ download_calls entries;
      pending := pending w ++ download_tasks download destDir entries |}).
Proof.
  revert w. induction entries as [|f entries IH]; intros w.
  - cbn. rewrite !app_nil_r. now destruct w.
  - cbn [forEach]. rewrite bind_run, downloadAndWriteFile_run, IH.
    cbn [heap disk fetches trace pending].
    unfold download_calls, download_tasks. cbn [flat_map].
    rewrite !app_nil_r, <- !app_assoc. reflexivity.
Qed.

Lemma downloadCustomizeFiles_run appId destDir resp w :
  let js := destDir +:+ sep +:+ "desktop" +:+ sep +:+ "js" in
  let css := destDir +:+ sep +:+ "desktop" +:+ sep +:+ "css" in
  let mjs := destDir +:+ sep +:+ "mobile" +:+ sep +:+ "js" in
  let js_dir := destDir +:+ sep +:+ "desktop" +:+ sep +:+ "js" +:+ sep in
  let css_dir := destDir +:+ sep +:+ "desktop" +:+ sep +:+ "css" +:+ sep in
  let mjs_dir := destDir +:+ sep +:+ "mobile" +:+ sep +:+ "js" +:+ sep in
  mkdirp_error (disk w) js_dir = None ->
  mkdirp_error (disk w) css_dir = None ->
  mkdirp_error (disk w) mjs_dir = None ->
  downloadCustomizeFiles kintoneApiClient appId destDir resp w =
  (Returned tt,
   {| heap := heap w;
      disk := add_dir mjs_dir (add_dir css_dir (add_dir js_dir (disk w)));
      fetches := fetches w;
      trace :=
        trace w ++
        [EvMkdirpSync js_dir; EvMkdirpSync css_dir; EvMkdirpSync mjs_dir] ++
        download_calls (desktop_js resp) ++
        download_calls (desktop_css resp) ++
        download_calls (mobile_js resp);
      pending :=
        pending w ++
        download_tasks download js (desktop_js resp) ++
        download_tasks download css (desktop_css resp) ++
        download_tasks download mjs (mobile_js resp) |}).
Proof.
  intros js css mjs js_dir css_dir mjs_dir Hjs Hcss Hmjs.
  unfold downloadCustomizeFiles. fold js css mjs js_dir css_dir mjs_dir.
  rewrite bind_run. cbn [forEach].
  rewrite bind_run, mkdirp_sync_run, Hjs.
  rewrite bind_run, mkdirp_sync_run. cbn [disk add_dir mkdirp_error].
  rewrite Hcss.
  rewrite bind_run, mkdirp_sync_run. cbn [disk add_dir mkdirp_error].
  rewrite Hmjs. cbn [mret Sync_ret heap disk fetches trace pending].
  rewrite bind_run, forEach_download_run.
  rewrite bind_run, forEach_download_run.
  rewrite forEach_download_run.
  cbn [heap disk fetches trace pending].
  rewrite <- !app_assoc. reflexivity.
Qed.

(** C6. With the three directories creatable and [downloadFile]
    handing back a promise for every key, the downloader first calls
    [mkdirp.sync] on [desktop/js], [desktop/css] and [mobile/js] under
    [destDir] (each path ends in the separator, as in the source); it
    then calls [downloadFile] once for each [FileRef], in list order,
    and never for a [UrlRef]; what it leaves pending is, for each
    [FileRef] and nothing else, the write of the downloaded content to
    the entry's display name under the directory of its list; such a
    write, once the download has resolved, replaces whatever the file
    held. *)
Theorem downloadCustomizeFiles_effects (appId destDir : string)
    (resp : GetAppCustomizeResp) (w : World) :
  let js := destDir +:+ sep +:+ "desktop" +:+ sep +:+ "js" in
  let css := destDir +:+ sep +:+ "desktop" +:+ sep +:+ "css" in
  let mjs := destDir +:+ sep +:+ "mobile" +:+ sep +:+ "js" in
  let js_dir := destDir +:+ sep +:+ "desktop" +:+ sep +:+ "js" +:+ sep in
  let css_dir := destDir +:+ sep +:+ "desktop" +:+ sep +:+ "css" +:+ sep in
  let mjs_dir := destDir +:+ sep +:+ "mobile" +:+ sep +:+ "js" +:+ sep in
  mkdirp_error (disk w) js_dir = None ->
  mkdirp_error (disk w) css_dir = None ->
  mkdirp_error (disk w) mjs_dir = None ->
  exists w' : World,
    downloadCustomizeFiles kintoneApiClient appId destDir resp w =
      (Returned tt, w') /\
    trace w' =
      trace w ++
      [EvMkdirpSync js_dir; EvMkdirpSync css_dir; EvMkdirpSync mjs_dir] ++
      download_calls (desktop_js resp) ++
      download_calls (desktop_css resp) ++
      download_calls (mobile_js resp) /\
    dirs (disk w') =
      {[mjs_dir]} ∪ ({[css_dir]} ∪ ({[js_dir]} ∪ dirs (disk w))) /\
    files (disk w') = files (disk w) /\
    pending w' =
      pending w ++
      download_tasks download js (desktop_js resp) ++
      download_tasks download css (desktop_css resp) ++
      download_tasks download mjs (mobile_js resp) /\
    forall (d : FileSystem) (path content : string),
      writeFile_error d path = None ->
      files (fst (run_task (ThenWriteFile (Resolved content) path) d)) =
      <[path := content]> (files d).
Proof.
  intros js css mjs js_dir css_dir mjs_dir Hjs Hcss Hmjs.
  eexists. split.
  { apply (downloadCustomizeFiles_run appId destDir resp w);
      assumption. }
  cbn [trace disk pending dirs files add_dir].
  repeat split.
  intros d path content Hd. cbn [run_task]. unfold write_file.
  now rewrite Hd.
Qed.

End Downloads.


(** *** The [try] block *)

Lemma try_block_thrown kintoneApiClient appId options w e :
  getAppCustomize kintoneApiClient (fetches w) appId = Thrown e ->
  try_block kintoneApiClient appId options w = (Thrown e, fetched appId w).
Proof.
  intros Hfetch. unfold try_block, call_getAppCustomize.
  now rewrite Hfetch.
Qed.

Lemma try_block_rejected kintoneApiClient appId options w e :
  getAppCustomize kintoneApiClient (fetches w) appId =
    Returned (Rejected e) ->
  try_block kintoneApiClient appId options w =
  (Returned (Rejected e), fetched appId w).
Proof.
  intros Hfetch. unfold try_block, call_getAppCustomize.
  now rewrite Hfetch.
Qed.

Lemma try_block_resolved kintoneApiClient appId options w resp :
  getAppCustomize kintoneApiClient (fetches w) appId =
    Returned (Resolved resp) ->
  try_block kintoneApiClient appId options w =
  match exportAsManifestFile appId (destDir options) resp
          (fetched appId w) with
  | (Thrown e, w2) => (Returned (Rejected e), w2)
  | (Returned r, w2) =>
      match downloadCustomizeFiles kintoneApiClient appId
              (destDir options) r w2 with
      | (Thrown e, w3) => (Returned (Rejected e), w3)
      | (Returned _, w3) => (Returned (Resolved tt), w3)
      end
  end.
Proof.
  intros Hfetch. unfold try_block, call_getAppCustomize.
  rewrite Hfetch. fold (fetched appId w).
  unfold then_, catch_, throw. cbv beta.
  destruct (exportAsManifestFile appId (destDir options) resp
              (fetched appId w)) as [[r|e] w2]; [|reflexivity].
  destruct (downloadCustomizeFiles kintoneApiClient appId
              (destDir options) r w2) as [[[]|e] w3]; reflexivity.
Qed.


(** *** The orchestrator, one step at a time *)

Lemma importCustomizeSetting_eq kintoneApiClient manifest status options w :
  importCustomizeSetting kintoneApiClient manifest status options w =
  match heap w !! status with
  | None => (Rejected (Error "TypeError"), w)
  | Some s =>
      match try_block kintoneApiClient (import_app manifest) options w with
      | (Returned chain, w1) => (chain, w1)
      | (Thrown e, w1) =>
          if isAuthenticationError e then
            (Rejected
               (Error (getBoundMessage (lang options) "E_Authentication")),
             w1)
          else if (retryCount s + 1 <? MAX_RETRY_COUNT)%Z then
            let '(status', w2) :=
              new_status {| retryCount := retryCount s + 1 |}
                (announce_retry options w1) in
            importCustomizeSetting kintoneApiClient manifest status'
              options w2
          else (Rejected e, w1)
      end
  end.
Proof.
  match goal with |- _ = ?r => remember r as rhs eqn:Hrhs end.
  simp importCustomizeSetting.
  destruct (inspect (heap w !! status)) as [[s|] Hs];
    rewrite Hs in Hrhs; subst rhs;
    simp importCustomizeSetting; [|reflexivity].
  destruct (try_block kintoneApiClient (import_app manifest) options w)
    as [[chain|e] w1]; simp importCustomizeSetting; [reflexivity|].
  destruct (isAuthenticationError e); simp importCustomizeSetting;
    [reflexivity|].
  match goal with |- _ = ?r => remember r as rhs eqn:Hrhs end.
  destruct (inspect (retryCount s + 1 <? MAX_RETRY_COUNT)%Z) as [[|] Hb];
    rewrite Hb in Hrhs; subst rhs; reflexivity.
Qed.

(** A chain handed back by the [try] block settles the call, fulfilled
    or rejected: the [catch] block is not entered. *)
Lemma importCustomizeSetting_chain
    kintoneApiClient manifest status options w s chain w1 :
  heap w !! status = Some s ->
  try_block kintoneApiClient (import_app manifest) options w =
    (Returned chain, w1) ->
  importCustomizeSetting kintoneApiClient manifest status options w =
  (chain, w1).
Proof.
  intros Hs Htry. now rewrite importCustomizeSetting_eq, Hs, Htry.
Qed.

(** An exception of the [try] block that is not an authentication
    failure, with retries left: wait, notice, and the call again with a
    new status object. *)
Lemma importCustomizeSetting_retry
    kintoneApiClient manifest status options w s e w1 :
  heap w !! status = Some s ->
  try_block kintoneApiClient (import_app manifest) options w =
    (Thrown e, w1) ->
  isAuthenticationError e = false ->
  (retryCount s + 1 < MAX_RETRY_COUNT)%Z ->
  importCustomizeSetting kintoneApiClient manifest status options w =
  importCustomizeSetting kintoneApiClient manifest (length (heap w1)) options
    {| heap := heap w1 ++ [{| retryCount := retryCount s + 1 |}];
       disk := disk w1; fetches := fetches w1;
       trace := trace w1 ++
                [EvWait 1000;
                 EvConsoleLog (getBoundMessage (lang options) "E_Retry")];
       pending := pending w1 |}.
Proof.
  intros Hs Htry Hauth Hbelow.
  rewrite importCustomizeSetting_eq, Hs, Htry, Hauth.
  apply Z.ltb_lt in Hbelow. rewrite Hbelow.
  unfold new_status, announce_retry. rewrite bind_run.
  cbn [emit snd heap disk fetches trace pending].
  rewrite <- app_assoc. reflexivity.
Qed.

Lemma importCustomizeSetting_authentication
    kintoneApiClient manifest status options w s e w1 :
  heap w !! status = Some s ->
  try_block kintoneApiClient (import_app manifest) options w =
    (Thrown e, w1) ->
  isAuthenticationError e = true ->
  importCustomizeSetting kintoneApiClient manifest status options w =
  (Rejected (Error (getBoundMessage (lang options) "E_Authentication")),
   w1).
Proof.
  intros Hs Htry Hauth.
  now rewrite importCustomizeSetting_eq, Hs, Htry, Hauth.
Qed.

Lemma importCustomizeSetting_exhausted
    kintoneApiClient manifest status options w s e w1 :
  heap w !! status = Some s ->
  try_block kintoneApiClient (import_app manifest) options w =
    (Thrown e, w1) ->
  isAuthenticationError e = false ->
  (MAX_RETRY_COUNT <= retryCount s + 1)%Z ->
  importCustomizeSetting kintoneApiClient manifest status options w =
  (Rejected e, w1).
Proof.
  intros Hs Htry Hauth Hbudget.
  rewrite importCustomizeSetting_eq, Hs, Htry, Hauth.
  apply Z.ltb_ge in Hbudget. now rewrite Hbudget.
Qed.

(** An authentication failure thrown by [getAppCustomize] itself: one
    call, no retry, the localized message. *)
Lemma thrown_authentication_is_localized
    kintoneApiClient manifest status options w s e :
  heap w !! status = Some s ->
  getAppCustomize kintoneApiClient (fetches w) (import_app manifest) =
    Thrown e ->
  isAuthenticationError e = true ->
  importCustomizeSetting kintoneApiClient manifest status options w =
  (Rejected (Error (getBoundMessage (lang options) "E_Authentication")),
   fetched (import_app manifest) w).
Proof.
  intros Hs Hfetch Hauth.
  eapply importCustomizeSetting_authentication; eauto.
  now apply try_block_thrown.
Qed.

(** Under a failure thrown by [getAppCustomize] on every call, the
    number of calls is the number of retries left, and at least one:
    [MAX_RETRY_COUNT] of them from [retryCount = 0]. *)
Lemma persistent_throw_attempts kintoneApiClient manifest options e :
  isAuthenticationError e = false ->
  (forall k : nat,
      getAppCustomize kintoneApiClient k (import_app manifest) = Thrown e) ->
  forall (n : nat) (status : loc) (w : World) (s : Status),
    heap w !! status = Some s ->
    Z.to_nat (MAX_RETRY_COUNT - retryCount s) = n ->
    fst (importCustomizeSetting kintoneApiClient manifest status options w)
      = Rejected e /\
    fetches
      (snd (importCustomizeSetting kintoneApiClient manifest status options w))
      = fetches w + Nat.max 1 n.
Proof.
  intros Hauth Hfetch n. induction n as [|n IH]; intros status w s Hs Hn.
  - rewrite (importCustomizeSetting_exhausted _ _ _ _ _ s e
               (fetched (import_app manifest) w)); auto.
    + cbn. split; [reflexivity|lia].
    + now apply try_block_thrown.
    + lia.
  - destruct (Z.lt_ge_cases (retryCount s + 1) MAX_RETRY_COUNT)
      as [Hbelow|Hbudget].
    + rewrite (importCustomizeSetting_retry _ _ _ _ _ s e
                 (fetched (import_app manifest) w)); auto;
        [|now apply try_block_thrown].
      cbn [fetched heap disk fetches trace pending].
      match goal with
      | |- context [importCustomizeSetting _ _ ?l _ ?w'] =>
          destruct (IH l w' {| retryCount := retryCount s + 1 |})
            as [Hres Hcount]
      end.
      * cbn [heap]. rewrite lookup_app_r by lia.
        now rewrite Nat.sub_diag.
      * cbn [retryCount]. lia.
      * split; [exact Hres|]. rewrite Hcount. cbn [fetches]. lia.
    + rewrite (importCustomizeSetting_exhausted _ _ _ _ _ s e
                 (fetched (import_app manifest) w)); auto.
      * cbn. split; [reflexivity|lia].
      * now apply try_block_thrown.
Qed.

(** C1. A non-authentication failure that reaches the caller as the
    rejection of the promise of [getAppCustomize] is not retried, even
    with retries left: the call makes one attempt, does not wait, prints
    nothing, allocates no status, and is rejected with the error. *)
Theorem rejected_fetch_is_not_retried
    (kintoneApiClient : KintoneApiClient)
    (manifest : ImportCustomizeManifest) (status : loc) (options : Option)
    (w : World) (s : Status) (e : JsError) :
  heap w !! status = Some s ->
  isAuthenticationError e = false ->
  (retryCount s + 1 < MAX_RETRY_COUNT)%Z ->
  getAppCustomize kintoneApiClient (fetches w) (import_app manifest) =
    Returned (Rejected e) ->
  importCustomizeSetting kintoneApiClient manifest status options w =
  (Rejected e, fetched (import_app manifest) w).
Proof.
  intros Hs _ _ Hfetch.
  eapply importCustomizeSetting_chain; [exact Hs|].
  now apply try_block_rejected.
Qed.

(** The same for a failure of the manifest writer: the exception of
    [mkdirp.sync] rejects the chain and ends the call. *)
Lemma failed_mkdirp_is_not_retried
    kintoneApiClient manifest status options w s resp e :
  heap w !! status = Some s ->
  getAppCustomize kintoneApiClient (fetches w) (import_app manifest) =
    Returned (Resolved resp) ->
  path_exists (destDir options) (disk w) = false ->
  mkdirp_error (disk w) (destDir options) = Some e ->
  importCustomizeSetting kintoneApiClient manifest status options w =
  (Rejected e,
   {| heap := heap w; disk := disk w; fetches := S (fetches w);
      trace := trace w ++ [EvGetAppCustomize (import_app manifest);
                           EvMkdirpSync (destDir options)];
      pending := pending w |}).
Proof.
  intros Hs Hfetch Hmissing Hmkdirp.
  eapply importCustomizeSetting_chain; [exact Hs|].
  rewrite (try_block_resolved _ _ _ _ resp) by assumption.
  rewrite exportAsManifestFile_run. cbn zeta.
  cbn [fetched disk heap fetches trace pending].
  rewrite Hmissing, Hmkdirp, <- app_assoc. reflexivity.
Qed.

(** C2. An [AuthenticationError] that reaches the caller as the
    rejection of the promise of [getAppCustomize] ends the call after
    one attempt and without a retry, but the call is rejected with that
    very error, not with the localized message. *)
Theorem rejected_authentication_is_not_localized
    (kintoneApiClient : KintoneApiClient)
    (manifest : ImportCustomizeManifest) (status : loc) (options : Option)
    (w : World) (s : Status) (message : string) :
  heap w !! status = Some s ->
  getAppCustomize kintoneApiClient (fetches w) (import_app manifest) =
    Returned (Rejected (AuthenticationError message)) ->
  importCustomizeSetting kintoneApiClient manifest status options w =
    (Rejected (AuthenticationError message),
     fetched (import_app manifest) w) /\
  Rejected (AuthenticationError message) <>
    Rejected (A := unit)
      (Error (getBoundMessage (lang options) "E_Authentication")).
Proof.
  intros Hs Hfetch. split; [|discriminate].
  eapply importCustomizeSetting_chain; [exact Hs|].
  now apply try_block_rejected.
Qed.

(** C3. A failure that is not an authentication failure, met with the
    retry budget used up, whether the [try] block throws it or its chain
    is rejected with it: the call is rejected with that same error, and
    the world is the one the failed attempt left, with no wait, no
    notice, no new status and no further call. *)
Theorem exhausted_budget_propagates_original_error
    (kintoneApiClient : KintoneApiClient)
    (manifest : ImportCustomizeManifest) (status : loc) (options : Option)
    (w w1 : World) (s : Status) (e : JsError) :
  heap w !! status = Some s ->
  isAuthenticationError e = false ->
  (MAX_RETRY_COUNT <= retryCount s + 1)%Z ->
  try_block kintoneApiClient (import_app manifest) options w =
    (Thrown e, w1) \/
  try_block kintoneApiClient (import_app manifest) options w =
    (Returned (Rejected e), w1) ->
  importCustomizeSetting kintoneApiClient manifest status options w =
  (Rejected e, w1).
Proof.
  intros Hs Hauth Hbudget [Htry|Htry].
  - eapply importCustomizeSetting_exhausted; eauto.
  - eapply importCustomizeSetting_chain; eauto.
Qed.


(** *** The status objects *)

Lemma keeps_heap_ret {A : Type} (a : A) : keeps_heap (mret a).
Proof. intros w. reflexivity. Qed.

Lemma keeps_heap_throw {A : Type} (e : JsError) : keeps_heap (throw (A := A) e).
Proof. intros w. reflexivity. Qed.

Lemma keeps_heap_emit ev : keeps_heap (emit ev).
Proof. intros w. reflexivity. Qed.

Lemma keeps_heap_spawn t : keeps_heap (spawn t).
Proof. intros w. reflexivity. Qed.

Lemma keeps_heap_existsSync path : keeps_heap (existsSync path).
Proof. intros w. reflexivity. Qed.

Lemma keeps_heap_make_dir path : keeps_heap (make_dir path).
Proof.
  intros w. unfold make_dir.
  destruct (mkdirp_error (disk w) path); reflexivity.
Qed.

Lemma keeps_heap_bind {A B : Type} (c : Sync A) (k : A -> Sync B) :
  keeps_heap c -> (forall a : A, keeps_heap (k a)) -> keeps_heap (c ≫= k).
Proof.
  intros Hc Hk w. rewrite bind_run. specialize (Hc w).
  destruct (c w) as [[a|e] w']; cbn [snd] in *; [|exact Hc].
  now rewrite Hk.
Qed.

Lemma keeps_heap_forEach {A : Type} (f : A -> Sync unit) (l : list A) :
  (forall a : A, keeps_heap (f a)) -> keeps_heap (forEach f l).
Proof.
  intros Hf. induction l as [|a l IH]; cbn [forEach].
  - apply keeps_heap_ret.
  - apply keeps_heap_bind; auto.
Qed.

Create HintDb heap_frame.
#[local] Hint Resolve keeps_heap_ret keeps_heap_throw keeps_heap_emit
  keeps_heap_spawn keeps_heap_existsSync keeps_heap_make_dir
  keeps_heap_bind keeps_heap_forEach : heap_frame.

Lemma keeps_heap_mkdirp_sync path : keeps_heap (mkdirp_sync path).
Proof. unfold mkdirp_sync. auto with heap_frame. Qed.

Lemma keeps_heap_fs_writeFile path data : keeps_heap (fs_writeFile path data).
Proof. unfold fs_writeFile. auto with heap_frame. Qed.

Lemma keeps_heap_call_downloadFile kintoneApiClient fileKey :
  keeps_heap (call_downloadFile kintoneApiClient fileKey).
Proof.
  unfold call_downloadFile. apply keeps_heap_bind; [auto with heap_frame|].
  intros _. destruct (downloadFile kintoneApiClient fileKey);
    auto with heap_frame.
Qed.

#[local] Hint Resolve keeps_heap_mkdirp_sync keeps_heap_fs_writeFile
  keeps_heap_call_downloadFile : heap_frame.

Lemma keeps_heap_exportAsManifestFile appId destRootDir resp :
  keeps_heap (exportAsManifestFile appId destRootDir resp).
Proof.
  unfold exportAsManifestFile.
  apply keeps_heap_bind; [auto with heap_frame|]. intros present.
  apply keeps_heap_bind; [destruct present; cbn; auto with heap_frame|].
  intros _. auto with heap_frame.
Qed.

Lemma keeps_heap_downloadAndWriteFile kintoneApiClient destDir f :
  keeps_heap (downloadAndWriteFile kintoneApiClient destDir f).
Proof. destruct f; cbn [downloadAndWriteFile]; auto with heap_frame. Qed.

#[local] Hint Resolve keeps_heap_exportAsManifestFile
  keeps_heap_downloadAndWriteFile : heap_frame.

Lemma keeps_heap_downloadCustomizeFiles kintoneApiClient appId destDir resp :
  keeps_heap (downloadCustomizeFiles kintoneApiClient appId destDir resp).
Proof. unfold downloadCustomizeFiles. auto 10 with heap_frame. Qed.

Lemma keeps_heap_try_block kintoneApiClient appId options :
  keeps_heap (try_block kintoneApiClient appId options).
Proof.
  intros w.
  destruct (getAppCustomize kintoneApiClient (fetches w) appId)
    as [[resp|e]|e] eqn:Hfetch.
  - rewrite (try_block_resolved _ _ _ _ resp) by assumption.
    pose proof (keeps_heap_exportAsManifestFile appId (destDir options)
                  resp (fetched appId w)) as Hexport.
    destruct (exportAsManifestFile appId (destDir options) resp
                (fetched appId w)) as [[r|e] w2]; cbn [snd] in *;
      [|exact Hexport].
    pose proof (keeps_heap_downloadCustomizeFiles kintoneApiClient appId
                  (destDir options) r w2) as Hdownload.
    destruct (downloadCustomizeFiles kintoneApiClient appId
                (destDir options) r w2) as [[[]|e] w3]; cbn [snd] in *;
      now rewrite Hdownload, Hexport.
  - rewrite (try_block_rejected _ _ _ _ e) by assumption. reflexivity.
  - rewrite (try_block_thrown _ _ _ _ e) by assumption. reflexivity.
Qed.

Lemma importCustomizeSetting_heap_prefix kintoneApiClient manifest options :
  forall (n : nat) (status : loc) (w : World),
    budget status w <= n ->
    heap w `prefix_of`
      heap (snd (importCustomizeSetting kintoneApiClient manifest status
                   options w)).
Proof.
  induction n as [|n IH]; intros status w Hn;
    rewrite importCustomizeSetting_eq; unfold budget in Hn;
    destruct (heap w !! status) as [s|] eqn:Hs; try reflexivity;
    pose proof (keeps_heap_try_block kintoneApiClient (import_app manifest)
                  options w) as Htry;
    destruct (try_block kintoneApiClient (import_app manifest) options w)
      as [[chain|e] w1]; cbn [snd] in Htry;
    try (cbn [snd]; rewrite Htry; reflexivity);
    destruct (isAuthenticationError e);
    try (cbn [snd]; rewrite Htry; reflexivity);
    destruct (retryCount s + 1 <? MAX_RETRY_COUNT)%Z eqn:Hbelow;
    try (cbn [snd]; rewrite Htry; reflexivity);
    apply Z.ltb_lt in Hbelow.
  - lia.
  - unfold new_status, announce_retry. rewrite bind_run.
    cbn [emit snd heap disk fetches trace pending].
    etransitivity; [|apply IH].
    + cbn [heap]. rewrite Htry. now apply prefix_app_r.
    + unfold budget. cbn [heap]. rewrite lookup_app_r by lia.
      rewrite Nat.sub_diag. cbn. lia.
Qed.

(** C10. Every status object that exists when the call starts, the
    caller's among them, holds the same [retryCount] when the call has
    settled, whatever the outcome; and when the call retries, it calls
    itself with a reference that named no object before, to an object
    whose [retryCount] is the incremented count. *)
Theorem status_is_never_mutated
    (kintoneApiClient : KintoneApiClient)
    (manifest : ImportCustomizeManifest) (status : loc) (options : Option)
    (w : World) :
  (forall (l : loc) (s : Status),
      heap w !! l = Some s ->
      heap (snd (importCustomizeSetting kintoneApiClient manifest status
                   options w)) !! l = Some s) /\
  (forall (s : Status) (e : JsError) (w1 : World),
      heap w !! status = Some s ->
      try_block kintoneApiClient (import_app manifest) options w =
        (Thrown e, w1) ->
      isAuthenticationError e = false ->
      (retryCount s + 1 < MAX_RETRY_COUNT)%Z ->
      let fresh :=
        new_status {| retryCount := retryCount s + 1 |}
          (announce_retry options w1) in
      heap w !! fst fresh = None /\
      heap (snd fresh) !! fst fresh =
        Some {| retryCount := retryCount s + 1 |} /\
      importCustomizeSetting kintoneApiClient manifest status options w =
      importCustomizeSetting kintoneApiClient manifest (fst fresh) options
        (snd fresh)).
Proof.
  split.
  - intros l s Hl. eapply prefix_lookup_Some; [exact Hl|].
    now apply (importCustomizeSetting_heap_prefix _ _ _ (budget status w)).
  - intros s e w1 Hs Htry Hauth Hbelow fresh.
    pose proof (keeps_heap_try_block kintoneApiClient (import_app manifest)
                  options w) as Hheap.
    rewrite Htry in Hheap. cbn [snd] in Hheap.
    subst fresh. unfold new_status, announce_retry. rewrite bind_run.
    cbn [emit fst snd heap disk fetches trace pending].
    repeat split.
    + rewrite Hheap. apply lookup_ge_None. lia.
    + rewrite lookup_app_r by lia. now rewrite Nat.sub_diag.
    + rewrite (importCustomizeSetting_retry _ _ _ _ _ s e w1) by assumption.
      now rewrite <- app_assoc.
Qed.


(** *** An attempt in which nothing fails *)

Lemma import_disk_fields destDir d :
  files (import_disk destDir d) = files d /\
  mkdirp_error (import_disk destDir d) = mkdirp_error d /\
  writeFile_error (import_disk destDir d) = writeFile_error d.
Proof.
  unfold import_disk. cbn [add_dir files mkdirp_error writeFile_error].
  destruct (path_exists destDir d); repeat split.
Qed.

Lemma path_exists_import_disk destDir d :
  path_exists destDir (import_disk destDir d) = true.
Proof.
  unfold import_disk.
  destruct (path_exists destDir d) eqn:Hpresent;
    unfold path_exists in *; cbn [add_dir dirs files];
    apply bool_decide_eq_true.
  - apply bool_decide_eq_true in Hpresent.
    destruct Hpresent as [Hdir|Hfile]; [left|now right].
    rewrite !elem_of_union. auto.
  - left. rewrite !elem_of_union, !elem_of_singleton. auto.
Qed.

Lemma importCustomizeSetting_success
    kintoneApiClient download manifest status options w s resp :
  (forall fileKey : string,
      downloadFile kintoneApiClient fileKey = Returned (download fileKey)) ->
  heap w !! status = Some s ->
  getAppCustomize kintoneApiClient (fetches w) (import_app manifest) =
    Returned (Resolved resp) ->
  (forall path : string, mkdirp_error (disk w) path = None) ->
  importCustomizeSetting kintoneApiClient manifest status options w =
  (Resolved tt,
   {| heap := heap w;
      disk := import_disk (destDir options) (disk w);
      fetches := S (fetches w);
      trace :=
        trace w ++
        import_events (import_app manifest) (destDir options) resp
          (path_exists (destDir options) (disk w));
      pending :=
        pending w ++
        import_tasks download (import_app manifest) (destDir options)
          resp |}).
Proof.
  intros Hdownload Hs Hfetch Hmkdirp.
  eapply importCustomizeSetting_chain; [exact Hs|].
  rewrite (try_block_resolved _ _ _ _ resp) by assumption.
  rewrite exportAsManifestFile_run. cbn zeta.
  cbn [fetched disk heap fetches trace pending].
  unfold import_disk, import_events, import_tasks.
  destruct (path_exists (destDir options) (disk w)).
  - rewrite (downloadCustomizeFiles_run _ download Hdownload)
      by (cbn [disk]; apply Hmkdirp).
    cbn [heap disk fetches trace pending].
    rewrite <- !app_assoc. reflexivity.
  - rewrite Hmkdirp.
    rewrite (downloadCustomizeFiles_run _ download Hdownload)
      by (cbn [disk add_dir mkdirp_error]; apply Hmkdirp).
    cbn [heap disk fetches trace pending].
    rewrite <- !app_assoc. reflexivity.
Qed.

(** C7. When writing [customize-manifest.json] fails and nothing else
    does, the orchestrator does not learn of it: the call makes its one
    attempt, goes on to the downloads and is fulfilled; the error is
    thrown from the callback of [fs.writeFile] when the pending write
    completes, outside every promise chain. *)
Theorem manifest_write_failure_is_not_seen
    (kintoneApiClient : KintoneApiClient)
    (download : string -> Settled string)
    (manifest : ImportCustomizeManifest) (status : loc) (options : Option)
    (w : World) (s : Status) (resp : GetAppCustomizeResp) (err : JsError) :
  let path := destDir options +:+ sep +:+ "customize-manifest.json" in
  let text :=
    JSON.stringify
      (manifest_to_JSON
         (customizeJson (import_app manifest) (destDir options) resp)) 4 in
  (forall fileKey : string,
      downloadFile kintoneApiClient fileKey = Returned (download fileKey)) ->
  heap w !! status = Some s ->
  getAppCustomize kintoneApiClient (fetches w) (import_app manifest) =
    Returned (Resolved resp) ->
  (forall p : string, mkdirp_error (disk w) p = None) ->
  writeFile_error (disk w) path = Some err ->
  exists w' : World,
    importCustomizeSetting kintoneApiClient manifest status options w =
      (Resolved tt, w') /\
    fetches w' = S (fetches w) /\
    trace w' =
      trace w ++
      import_events (import_app manifest) (destDir options) resp
        (path_exists (destDir options) (disk w)) /\
    WriteFile path text ∈ pending w' /\
    run_task (WriteFile path text) (disk w') =
      (disk w', Some (UncaughtException err)).
Proof.
  intros path text Hdownload Hs Hfetch Hmkdirp Hwrite.
  eexists. split.
  { eapply importCustomizeSetting_success; eauto. }
  cbn [fetches trace pending disk]. repeat split.
  - apply elem_of_app. right. unfold import_tasks. fold path. fold text.
    apply list_elem_of_here.
  - cbn [run_task]. unfold write_file.
    destruct (import_disk_fields (destDir options) (disk w))
      as (_ & _ & Herr).
    now rewrite Herr, Hwrite.
Qed.


(** *** Completion of the pending writes *)

Lemma write_file_fields path data d :
  writeFile_error d path = None ->
  write_file path data d =
  ({| dirs := dirs d; files := <[path := data]> (files d);
      mkdirp_error := mkdirp_error d;
      writeFile_error := writeFile_error d |}, None).
Proof. intros Hd. unfold write_file. now rewrite Hd. Qed.

Lemma settle_files order :
  forall d : FileSystem,
    (forall path : string, writeFile_error d path = None) ->
    files (fst (settle order d)) = foldl apply_write (files d) order.
Proof.
  induction order as [|t order IH]; intros d Hd; [reflexivity|].
  cbn [settle foldl]. unfold apply_write at 2.
  destruct t as [path data|[resp|e] path]; cbn [run_task task_write].
  - rewrite write_file_fields by apply Hd. now rewrite IH.
  - rewrite write_file_fields by apply Hd. now rewrite IH.
  - specialize (IH d Hd). destruct (settle order d) as [d' incidents].
    exact IH.
Qed.

Lemma last_write_snoc path order t :
  last_write path (order ++ [t]) =
  match task_write t with
  | Some (p, data) =>
      if decide (p = path) then Some data else last_write path order
  | None => last_write path order
  end.
Proof. unfold last_write. now rewrite foldl_app. Qed.

Lemma foldl_apply_write_lookup (m : gmap string string) path order :
  foldl apply_write m order !! path =
  match last_write path order with
  | Some data => Some data
  | None => m !! path
  end.
Proof.
  induction order as [|t order IH] using rev_ind; [reflexivity|].
  rewrite foldl_app, last_write_snoc. cbn [foldl]. unfold apply_write at 1.
  destruct (task_write t) as [[p data]|]; [|exact IH].
  destruct (decide (p = path)) as [->|Hne].
  - apply lookup_insert_eq.
  - now rewrite lookup_insert_ne.
Qed.

Lemma last_write_Some path order data :
  last_write path order = Some data ->
  exists t : Task, t ∈ order /\ task_write t = Some (path, data).
Proof.
  induction order as [|t order IH] using rev_ind; [discriminate|].
  rewrite last_write_snoc.
  destruct (task_write t) as [[p data']|] eqn:Ht.
  - destruct (decide (p = path)) as [->|Hne].
    + intros [= ->]. exists t. split; [|exact Ht].
      apply elem_of_app. right. apply list_elem_of_here.
    + intros Hlast. destruct (IH Hlast) as (t' & Hin & Ht').
      exists t'. split; [|exact Ht']. apply elem_of_app. now left.
  - intros Hlast. destruct (IH Hlast) as (t' & Hin & Ht').
    exists t'. split; [|exact Ht']. apply elem_of_app. now left.
Qed.

Lemma last_write_None path order :
  last_write path order = None ->
  forall (t : Task) (data : string),
    t ∈ order -> task_write t <> Some (path, data).
Proof.
  induction order as [|t order IH] using rev_ind.
  - intros _ t data Hin. inversion Hin.
  - rewrite last_write_snoc. intros Hlast t' data Hin.
    apply elem_of_app in Hin. destruct Hin as [Hin|Hin].
    + destruct (task_write t) as [[p data']|].
      * destruct (decide (p = path)); [discriminate|]. now apply IH.
      * now apply IH.
    + apply list_elem_of_singleton in Hin. subst t'.
      destruct (task_write t) as [[p data']|]; [|discriminate].
      destruct (decide (p = path)) as [->|Hne]; [discriminate|].
      congruence.
Qed.



(** *** The paths written are distinct *)

Lemma elem_of_download_tasks download destDir entries t :
  t ∈ download_tasks download destDir entries <->
  exists fileKey name : string,
    UploadedFile fileKey name ∈ entries /\
    t = ThenWriteFile (download fileKey) (destDir +:+ sep +:+ name).
Proof.
  unfold download_tasks. rewrite list_elem_of_In, in_flat_map. split.
  - intros (f & Hf & Ht). apply list_elem_of_In in Hf.
    destruct f as [fileKey name|url]; [|destruct Ht].
    destruct Ht as [<-|[]]. eauto.
  - intros (fileKey & name & Hf & ->). exists (UploadedFile fileKey name).
    split; [now apply list_elem_of_In|now left].
Qed.

Lemma task_write_download (download : string -> Settled string)
    (fileKey path p data : string) :
  task_write (ThenWriteFile (download fileKey) path) = Some (p, data) ->
  p = path /\ download fileKey = Resolved data.
Proof.
  cbn. destruct (download fileKey) as [resp|e]; [|discriminate].
  now intros [= <- <-].
Qed.

Lemma target_inj destDir slot1 slot2 name1 name2 :
  slot1 <= 3 -> slot2 <= 3 ->
  target destDir slot1 name1 = target destDir slot2 name2 ->
  slot1 = slot2 /\ (slot1 <> 0 -> name1 = name2).
Proof.
  intros H1 H2 Heq.
  destruct slot1 as [|[|[|[|]]]]; try lia;
  destruct slot2 as [|[|[|[|]]]]; try lia;
    unfold target in Heq; rewrite ?append_assoc in Heq;
    repeat (apply String.app_inj in Heq).
  all: try (split; [reflexivity|congruence]).
  all: exfalso; cbv [String.append] in Heq; discriminate Heq.
Qed.

Lemma import_tasks_write download appId destDir resp t path data :
  t ∈ import_tasks download appId destDir resp ->
  task_write t = Some (path, data) ->
  exists (slot : nat) (name : string),
    slot <= 3 /\ path = target destDir slot name /\
    (slot = 0 /\
     data = JSON.stringify
              (manifest_to_JSON (customizeJson appId destDir resp)) 4 \/
     slot <> 0 /\
     exists fileKey : string,
       UploadedFile fileKey name ∈ entries_of resp slot /\
       download fileKey = Resolved data).
Proof.
  unfold import_tasks. intros Hin Hwrite.
  apply elem_of_cons in Hin. destruct Hin as [->|Hin].
  - injection Hwrite as <- <-. exists 0, "". repeat split; auto.
  - rewrite !elem_of_app, !elem_of_download_tasks in Hin.
    destruct Hin as [(k & n & Hf & ->)|[(k & n & Hf & ->)|(k & n & Hf & ->)]];
      apply task_write_download in Hwrite; destruct Hwrite as [-> Hk];
      [exists 1, n|exists 2, n|exists 3, n];
      (split; [lia|]); (split; [reflexivity|]); right;
      (split; [lia|]); exists k; auto.
Qed.

Lemma import_tasks_consistent download appId destDir resp :
  same_name_same_content download (desktop_js resp) ->
  same_name_same_content download (desktop_css resp) ->
  same_name_same_content download (mobile_js resp) ->
  consistent (import_tasks download appId destDir resp).
Proof.
  intros Hjs Hcss Hmjs t1 t2 path data1 data2 Hin1 Hin2 Hw1 Hw2.
  destruct (import_tasks_write _ _ _ _ _ _ _ Hin1 Hw1)
    as (slot1 & name1 & Hslot1 & Hpath1 & Hcase1).
  destruct (import_tasks_write _ _ _ _ _ _ _ Hin2 Hw2)
    as (slot2 & name2 & Hslot2 & Hpath2 & Hcase2).
  rewrite Hpath1 in Hpath2.
  destruct (target_inj _ _ _ _ _ Hslot1 Hslot2 Hpath2) as [<- Hname].
  destruct Hcase1 as [[-> ->]|[Hnz (k1 & Hf1 & Hk1)]];
    destruct Hcase2 as [[Hz ->]|[Hnz2 (k2 & Hf2 & Hk2)]];
    try reflexivity; try congruence.
  specialize (Hname Hnz). subst name2.
  assert (Hsame : download k1 = download k2).
  { destruct slot1 as [|[|[|]]]; cbn [entries_of] in *; eauto. }
  congruence.
Qed.

(** *** Writes land on the files their paths name *)

Lemma task_write_resolve realpath t :
  task_write (resolve_task realpath t) =
  match task_write t with
  | Some (path, data) => Some (realpath path, data)
  | None => None
  end.
Proof. now destruct t as [path data|[resp|e] path]. Qed.

Lemma resolve_task_as_written realpath (order : list Task) :
  (forall path : string, realpath path = path) ->
  resolve_task realpath <$> order = order.
Proof.
  intros Hid. induction order as [|t order IH]; [reflexivity|].
  rewrite fmap_cons, IH. f_equal.
  destruct t as [path data|download path]; cbn [resolve_task];
    now rewrite Hid.
Qed.

(** Where every path is the one name of its file, completion is
    completion as the paths are written. *)
Lemma pipeline_idempotent_on_as_written realpath kintoneApiClient manifest
    status options w :
  (forall path : string, realpath path = path) ->
  pipeline_idempotent_on realpath kintoneApiClient manifest status options w
  <-> pipeline_idempotent kintoneApiClient manifest status options w.
Proof.
  intros Hid. unfold pipeline_idempotent_on, pipeline_idempotent, complete.
  cbv zeta.
  split; intros Hidem order1 order2 Horder1 Horder2;
    specialize (Hidem order1 order2 Horder1 Horder2);
    now rewrite !(resolve_task_as_written realpath) in * by assumption.
Qed.


Lemma consistent_agree_on realpath tasks :
  (forall path : string, realpath path = path) ->
  consistent tasks -> agree_on realpath tasks.
Proof.
  intros Hid Hconsistent t1 t2 path1 path2 data1 data2 Hin1 Hin2 Hw1 Hw2 Hp.
  rewrite !Hid in Hp. subst path2.
  exact (Hconsistent t1 t2 path1 data1 data2 Hin1 Hin2 Hw1 Hw2).
Qed.

(** What a file holds once the pending operations have completed in the
    order [order]. *)
Lemma complete_files realpath order d file :
  (forall path : string, writeFile_error d path = None) ->
  files (fst (complete realpath order d)) !! file =
  match last_write file (resolve_task realpath <$> order) with
  | Some data => Some data
  | None => files d !! file
  end.
Proof.
  intros Hd. unfold complete. rewrite settle_files by assumption.
  apply foldl_apply_write_lookup.
Qed.

(** With writes that agree, a file that is written to holds what any of
    its writes carries. *)
Lemma complete_write realpath tasks order d t path data :
  agree_on realpath tasks ->
  (forall t' : Task, t' ∈ order <-> t' ∈ tasks) ->
  (forall p : string, writeFile_error d p = None) ->
  t ∈ tasks ->
  task_write t = Some (path, data) ->
  files (fst (complete realpath order d)) !! realpath path = Some data.
Proof.
  intros Hagree Horder Hd Hin Hw. rewrite complete_files by assumption.
  destruct (last_write _ _) as [data'|] eqn:Hlast.
  - apply last_write_Some in Hlast. destruct Hlast as (t' & Hin' & Hw').
    apply list_elem_of_fmap in Hin'. destruct Hin' as (t0 & -> & Hin0).
    rewrite task_write_resolve in Hw'.
    destruct (task_write t0) as [[p0 d0]|] eqn:H0; [|discriminate].
    injection Hw' as Hp <-. f_equal.
    eapply (Hagree t0 t p0 path); eauto. now apply Horder.
  - exfalso.
    eapply (last_write_None _ _ Hlast (resolve_task realpath t) data).
    + apply list_elem_of_fmap. exists t. split; [reflexivity|].
      now apply Horder.
    + now rewrite task_write_resolve, Hw.
Qed.


(** *** What the stages leave alone *)

Lemma advances_refl w : advances w w [] [].
Proof.
  unfold advances. rewrite !app_nil_r. repeat split; reflexivity.
Qed.

Lemma advances_trans w w1 w2 evs1 evs2 tasks1 tasks2 :
  advances w w1 evs1 tasks1 ->
  advances w1 w2 evs2 tasks2 ->
  advances w w2 (evs1 ++ evs2) (tasks1 ++ tasks2).
Proof.
  unfold advances.
  intros (Hh1 & Hf1 & Ht1 & Hp1 & Hfi1 & Hd1 & Hm1 & Hw1)
         (Hh2 & Hf2 & Ht2 & Hp2 & Hfi2 & Hd2 & Hm2 & Hw2).
  rewrite Hh2, Hf2, Ht2, Hp2, Hfi2, Hm2, Hw2, Ht1, Hp1, !app_assoc.
  repeat split; try assumption. etransitivity; eassumption.
Qed.

Lemma stage_ret {A : Type} (a : A) : stage (mret a).
Proof. intros w. exists [], []. split; [apply advances_refl|reflexivity]. Qed.

Lemma stage_throw {A : Type} (e : JsError) : stage (throw (A := A) e).
Proof. intros w. exists [], []. split; [apply advances_refl|reflexivity]. Qed.

Lemma stage_existsSync path : stage (existsSync path).
Proof. intros w. exists [], []. split; [apply advances_refl|reflexivity]. Qed.

Lemma stage_emit ev : stage_event ev = true -> stage (emit ev).
Proof.
  intros Hev w. exists [ev], []. split.
  - unfold advances. cbn. rewrite app_nil_r. repeat split; reflexivity.
  - cbn. now rewrite Hev.
Qed.

Lemma stage_spawn t : stage (spawn t).
Proof.
  intros w. exists [], [t]. split; [|reflexivity].
  unfold advances. cbn. rewrite app_nil_r. repeat split; reflexivity.
Qed.

Lemma stage_make_dir path : stage (make_dir path).
Proof.
  intros w. exists [], []. split; [|reflexivity]. unfold make_dir.
  destruct (mkdirp_error (disk w) path); [apply advances_refl|].
  unfold advances. cbn. rewrite !app_nil_r. repeat split; try reflexivity.
  apply union_subseteq_r.
Qed.

Lemma stage_bind {A B : Type} (c : Sync A) (k : A -> Sync B) :
  stage c -> (forall a : A, stage (k a)) -> stage (c ≫= k).
Proof.
  intros Hc Hk w. rewrite bind_run.
  destruct (Hc w) as (evs1 & tasks1 & Hadv1 & Hev1).
  destruct (c w) as [[a|e] w1]; cbn [snd] in *.
  - destruct (Hk a w1) as (evs2 & tasks2 & Hadv2 & Hev2).
    exists (evs1 ++ evs2), (tasks1 ++ tasks2). split.
    + eapply advances_trans; eassumption.
    + now rewrite forallb_app, Hev1, Hev2.
  - exists evs1, tasks1. now split.
Qed.

Lemma stage_forEach {A : Type} (f : A -> Sync unit) (l : list A) :
  (forall a : A, stage (f a)) -> stage (forEach f l).
Proof.
  intros Hf. induction l as [|a l IH]; cbn [forEach].
  - apply stage_ret.
  - apply stage_bind; auto.
Qed.

Lemma stage_mkdirp_sync path : stage (mkdirp_sync path).
Proof.
  unfold mkdirp_sync. apply stage_bind; [now apply stage_emit|].
  intros _. apply stage_make_dir.
Qed.

Lemma stage_fs_writeFile path data : stage (fs_writeFile path data).
Proof.
  unfold fs_writeFile. apply stage_bind; [now apply stage_emit|].
  intros _. apply stage_spawn.
Qed.

Lemma stage_call_downloadFile kintoneApiClient fileKey :
  stage (call_downloadFile kintoneApiClient fileKey).
Proof.
  unfold call_downloadFile. apply stage_bind; [now apply stage_emit|].
  intros _. destruct (downloadFile kintoneApiClient fileKey);
    [apply stage_ret|apply stage_throw].
Qed.

Lemma stage_exportAsManifestFile appId destRootDir resp :
  stage (exportAsManifestFile appId destRootDir resp).
Proof.
  unfold exportAsManifestFile.
  apply stage_bind; [apply stage_existsSync|]. intros present.
  apply stage_bind.
  - destruct present; cbn [negb]; [apply stage_ret|apply stage_mkdirp_sync].
  - intros _. apply stage_bind; [apply stage_fs_writeFile|].
    intros _. apply stage_ret.
Qed.

Lemma stage_downloadAndWriteFile kintoneApiClient destDir f :
  stage (downloadAndWriteFile kintoneApiClient destDir f).
Proof.
  destruct f as [fileKey name|url]; cbn [downloadAndWriteFile].
  - apply stage_bind; [apply stage_call_downloadFile|].
    intros p. apply stage_spawn.
  - apply stage_ret.
Qed.

Lemma stage_downloadCustomizeFiles kintoneApiClient appId destDir resp :
  stage (downloadCustomizeFiles kintoneApiClient appId destDir resp).
Proof.
  unfold downloadCustomizeFiles.
  apply stage_bind; [apply stage_forEach, stage_mkdirp_sync|]. intros _.
  apply stage_bind;
    [apply stage_forEach; intros f; apply stage_downloadAndWriteFile|].
  intros _.
  apply stage_bind;
    [apply stage_forEach; intros f; apply stage_downloadAndWriteFile|].
  intros _. apply stage_forEach. intros f. apply stage_downloadAndWriteFile.
Qed.

(** After the one call of [getAppCustomize], the [try] block does only
    what the two stages do. *)
Lemma try_block_stage kintoneApiClient appId options w :
  exists (evs : list Event) (tasks : list Task),
    advances (fetched appId w)
      (snd (try_block kintoneApiClient appId options w)) evs tasks /\
    forallb stage_event evs = true.
Proof.
  destruct (getAppCustomize kintoneApiClient (fetches w) appId)
    as [[resp|e]|e] eqn:Hfetch.
  - rewrite (try_block_resolved _ _ _ _ resp) by assumption.
    destruct (stage_exportAsManifestFile appId (destDir options) resp
                (fetched appId w)) as (evs1 & tasks1 & Hadv1 & Hev1).
    destruct (exportAsManifestFile appId (destDir options) resp
                (fetched appId w)) as [[r|e] w2]; cbn [snd] in *;
      [|now exists evs1, tasks1].
    destruct (stage_downloadCustomizeFiles kintoneApiClient appId
                (destDir options) r w2) as (evs2 & tasks2 & Hadv2 & Hev2).
    exists (evs1 ++ evs2), (tasks1 ++ tasks2).
    rewrite forallb_app, Hev1, Hev2. split; [|reflexivity].
    destruct (downloadCustomizeFiles kintoneApiClient appId
                (destDir options) r w2) as [[[]|e] w3]; cbn [snd] in *;
      eapply advances_trans; eassumption.
  - rewrite (try_block_rejected _ _ _ _ e) by assumption.
    exists [], []. split; [apply advances_refl|reflexivity].
  - rewrite (try_block_thrown _ _ _ _ e) by assumption.
    exists [], []. split; [apply advances_refl|reflexivity].
Qed.

(** *** Counting *)

Lemma count_app p evs1 evs2 :
  count p (evs1 ++ evs2) = count p evs1 + count p evs2.
Proof. unfold count. now rewrite List.filter_app, length_app. Qed.

Lemma waited_app evs1 evs2 :
  waited (evs1 ++ evs2) = (waited evs1 + waited evs2)%Z.
Proof.
  induction evs1 as [|ev evs1 IH]; [reflexivity|].
  destruct ev; cbn [List.app waited]; rewrite IH; lia.
Qed.

Lemma stage_events_count evs :
  forallb stage_event evs = true ->
  count is_fetch evs = 0 /\ count is_wait evs = 0 /\
  count is_notice evs = 0 /\ waited evs = 0%Z.
Proof.
  induction evs as [|ev evs IH]; [now repeat split|].
  cbn [forallb]. intros Hev. apply andb_prop in Hev.
  destruct Hev as [Hev Hrest]. specialize (IH Hrest).
  destruct ev; try discriminate; exact IH.
Qed.

Lemma summary_of_attempt budget appId w w1 evs tasks :
  advances (fetched appId w) w1 evs tasks ->
  forallb stage_event evs = true ->
  run_summary budget w w1.
Proof.
  intros (Hh & Hf & Ht & Hp & Hfi & Hd & Hm & Hw) Hev.
  destruct (stage_events_count _ Hev) as (Hc1 & Hc2 & Hc3 & Hc4).
  exists (EvGetAppCustomize appId :: evs), tasks.
  cbn [fetched heap disk fetches trace pending] in *.
  rewrite Ht, Hp, Hfi, Hm, Hw, Hh, Hf, <- app_assoc.
  change (EvGetAppCustomize appId :: evs)
    with ([EvGetAppCustomize appId] ++ evs).
  rewrite !count_app, waited_app, Hc1, Hc2, Hc3, Hc4. cbn.
  repeat split; try assumption; lia.
Qed.

Lemma summary_of_retry budget budget' appId notice next w w1 w' evs tasks :
  advances (fetched appId w) w1 evs tasks ->
  forallb stage_event evs = true ->
  1 <= budget' < budget ->
  run_summary budget'
    {| heap := heap w1 ++ [{| retryCount := next |}]; disk := disk w1;
       fetches := fetches w1;
       trace := trace w1 ++ [EvWait 1000; EvConsoleLog notice];
       pending := pending w1 |} w' ->
  run_summary budget w w'.
Proof.
  intros (Hh & Hf & Ht & Hp & Hfi & Hd & Hm & Hw) Hev Hbudget
         (evs' & tasks' & Ht' & Hp' & Hfi' & Hd' & Hm' & Hw' & Hf' & Hh' &
          Hfetch & Hnotice & Hwaited & Hbound).
  destruct (stage_events_count _ Hev) as (Hc1 & Hc2 & Hc3 & Hc4).
  cbn [fetched heap disk fetches trace pending] in *.
  exists ([EvGetAppCustomize appId] ++ evs ++
          [EvWait 1000; EvConsoleLog notice] ++ evs'), (tasks ++ tasks').
  rewrite Ht', Hp', Hfi', Hm', Hw', Hf', Hh', Ht, Hp, Hfi, Hm, Hw, Hh, Hf.
  rewrite !count_app, !waited_app, Hc1, Hc2, Hc3, Hc4, length_app.
  cbn [count List.filter is_fetch is_wait is_notice length waited].
  rewrite <- !app_assoc. cbn [List.app].
  repeat split; try lia.
  etransitivity; eassumption.
Qed.

(** Every call, whatever the client does and however it ends. *)
Lemma importCustomizeSetting_summary kintoneApiClient manifest options :
  forall (n : nat) (status : loc) (w : World) (s : Status),
    heap w !! status = Some s ->
    Z.to_nat (MAX_RETRY_COUNT - retryCount s) <= n ->
    run_summary (Z.to_nat (MAX_RETRY_COUNT - retryCount s)) w
      (snd (importCustomizeSetting kintoneApiClient manifest status options
              w)).
Proof.
  induction n as [|n IH]; intros status w s Hs Hn;
    destruct (try_block_stage kintoneApiClient (import_app manifest)
                options w) as (evs & tasks & Hadv & Hev);
    destruct (try_block kintoneApiClient (import_app manifest) options w)
      as [[chain|e] w1] eqn:Htry; cbn [snd] in Hadv.
  1, 3: rewrite (importCustomizeSetting_chain _ _ _ _ _ s chain w1)
          by assumption;
        eapply summary_of_attempt; eassumption.
  all: destruct (isAuthenticationError e) eqn:Hauth;
    [rewrite (importCustomizeSetting_authentication _ _ _ _ _ s e w1)
       by assumption;
     eapply summary_of_attempt; eassumption|].
  all: destruct (Z.lt_ge_cases (retryCount s + 1) MAX_RETRY_COUNT)
         as [Hbelow|Hbudget];
    [|rewrite (importCustomizeSetting_exhausted _ _ _ _ _ s e w1)
        by assumption;
      eapply summary_of_attempt; eassumption].
  - lia.
  - rewrite (importCustomizeSetting_retry _ _ _ _ _ s e w1) by assumption.
    eapply (summary_of_retry _
              (Z.to_nat (MAX_RETRY_COUNT - (retryCount s + 1))));
      [eassumption|eassumption|lia|].
    apply (IH _ _ {| retryCount := retryCount s + 1 |}).
    + cbn [heap]. rewrite lookup_app_r by lia. now rewrite Nat.sub_diag.
    + cbn [retryCount]. lia.
Qed.

(** The [try] block throws only when [getAppCustomize] does, and then
    nothing else has happened. *)
Lemma try_block_thrown_inv kintoneApiClient appId options w e w1 :
  try_block kintoneApiClient appId options w = (Thrown e, w1) ->
  getAppCustomize kintoneApiClient (fetches w) appId = Thrown e /\
  w1 = fetched appId w.
Proof.
  destruct (getAppCustomize kintoneApiClient (fetches w) appId)
    as [[resp|e']|e'] eqn:Hfetch.
  - rewrite (try_block_resolved _ _ _ _ resp) by assumption.
    destruct (exportAsManifestFile appId (destDir options) resp
                (fetched appId w)) as [[r|e''] w2]; [|discriminate].
    destruct (downloadCustomizeFiles kintoneApiClient appId
                (destDir options) r w2) as [[[]|e''] w3]; discriminate.
  - rewrite (try_block_rejected _ _ _ _ e') by assumption. discriminate.
  - rewrite (try_block_thrown _ _ _ _ e') by assumption.
    intros [= -> <-]. now split.
Qed.

Lemma final_attempt_shape kintoneApiClient appId options w :
  exists (evs : list Event) (tasks : list Task),
    forallb stage_event evs = true /\
    heap (snd (try_block kintoneApiClient appId options w)) = heap w /\
    fetches (snd (try_block kintoneApiClient appId options w)) =
      fetches w + 0 + 1 /\
    trace (snd (try_block kintoneApiClient appId options w)) =
      trace w ++ [] ++ EvGetAppCustomize appId :: evs /\
    pending (snd (try_block kintoneApiClient appId options w)) =
      pending w ++ tasks.
Proof.
  destruct (try_block_stage kintoneApiClient appId options w)
    as (evs & tasks & (Hh & Hf & Ht & Hp & _) & Hev).
  exists evs, tasks. rewrite Hh, Hf, Ht, Hp.
  cbn [fetched heap fetches trace pending List.app].
  rewrite <- app_assoc. repeat split; try assumption. lia.
Qed.

(** Every run is some retries, each a call, a wait and a notice, and then
    one last attempt; only the last attempt reaches the two stages. *)
Lemma importCustomizeSetting_shape kintoneApiClient manifest options :
  forall (n : nat) (status : loc) (w : World) (s : Status),
    heap w !! status = Some s ->
    Z.to_nat (MAX_RETRY_COUNT - retryCount s) <= n ->
    exists (k : nat) (evs : list Event) (tasks : list Task),
      k < Nat.max 1 (Z.to_nat (MAX_RETRY_COUNT - retryCount s)) /\
      forallb stage_event evs = true /\
      heap (snd (importCustomizeSetting kintoneApiClient manifest status
                   options w)) =
        heap w ++ retry_statuses (retryCount s) k /\
      fetches (snd (importCustomizeSetting kintoneApiClient manifest status
                      options w)) = fetches w + k + 1 /\
      trace (snd (importCustomizeSetting kintoneApiClient manifest status
                    options w)) =
        trace w ++
        retry_events (import_app manifest)
          (getBoundMessage (lang options) "E_Retry") k ++
        EvGetAppCustomize (import_app manifest) :: evs /\
      pending (snd (importCustomizeSetting kintoneApiClient manifest status
                      options w)) = pending w ++ tasks.
Proof.
  induction n as [|n IH]; intros status w s Hs Hn;
    destruct (final_attempt_shape kintoneApiClient (import_app manifest)
                options w) as (evs & tasks & Hev & Hh & Hf & Ht & Hp);
    destruct (try_block kintoneApiClient (import_app manifest) options w)
      as [[chain|e] w1] eqn:Htry; cbn [snd] in Hh, Hf, Ht, Hp.
  1, 3: rewrite (importCustomizeSetting_chain _ _ _ _ _ s chain w1)
          by assumption;
        exists 0, evs, tasks; cbn [snd retry_statuses retry_events];
        rewrite app_nil_r; repeat split; try assumption; lia.
  all: destruct (isAuthenticationError e) eqn:Hauth;
    [rewrite (importCustomizeSetting_authentication _ _ _ _ _ s e w1)
       by assumption;
     exists 0, evs, tasks; cbn [snd retry_statuses retry_events];
     rewrite app_nil_r; repeat split; try assumption; lia|].
  all: destruct (Z.lt_ge_cases (retryCount s + 1) MAX_RETRY_COUNT)
         as [Hbelow|Hbudget];
    [|rewrite (importCustomizeSetting_exhausted _ _ _ _ _ s e w1)
        by assumption;
      exists 0, evs, tasks; cbn [snd retry_statuses retry_events];
      rewrite app_nil_r; repeat split; try assumption; lia].
  - lia.
  - rewrite (importCustomizeSetting_retry _ _ _ _ _ s e w1) by assumption.
    destruct (try_block_thrown_inv _ _ _ _ _ _ Htry) as [_ ->].
    cbn [fetched heap disk fetches trace pending].
    match goal with
    | |- context [importCustomizeSetting _ _ ?l _ ?w2] =>
        destruct (IH l w2 {| retryCount := retryCount s + 1 |})
          as (k & evs' & tasks' & Hk & Hev' & Hh' & Hf' & Ht' & Hp')
    end.
    + cbn [heap]. rewrite lookup_app_r by lia. now rewrite Nat.sub_diag.
    + cbn [retryCount]. lia.
    + cbn [heap disk fetches trace pending retryCount] in *.
      exists (S k), evs', tasks'.
      rewrite Hh', Hf', Ht', Hp'. cbn [retry_statuses retry_events].
      rewrite <- !app_assoc. cbn [List.app].
      repeat split; try assumption; lia.
Qed.

(** X1. Whatever the client does, a call of [importCustomizeSetting]
    calls [getAppCustomize] at least once and at most
    [MAX_RETRY_COUNT - retryCount] times (once when that is not positive),
    and between two calls it waits exactly 1000 ms: the time spent waiting
    is 1000 ms times the number of calls but one. *)
Theorem attempts_are_bounded
    (kintoneApiClient : KintoneApiClient)
    (manifest : ImportCustomizeManifest) (status : loc) (options : Option)
    (w : World) (s : Status) :
  heap w !! status = Some s ->
  exists (calls : nat) (evs : list Event),
    trace (snd (importCustomizeSetting kintoneApiClient manifest status
                  options w)) = trace w ++ evs /\
    fetches (snd (importCustomizeSetting kintoneApiClient manifest status
                    options w)) = fetches w + calls /\
    count is_fetch evs = calls /\
    1 <= calls <= Nat.max 1 (Z.to_nat (MAX_RETRY_COUNT - retryCount s)) /\
    waited evs = (1000 * (Z.of_nat calls - 1))%Z.
Proof.
  intros Hs.
  destruct (importCustomizeSetting_summary kintoneApiClient manifest options
              _ status w s Hs (Nat.le_refl _))
    as (evs & tasks & Ht & _ & _ & _ & _ & _ & Hf & _ & Hfetch & _ &
        Hwaited & Hbound).
  exists (count is_fetch evs), evs.
  repeat split; try assumption; lia.
Qed.

(** X2. Whatever the client does, a run is [k] retries, each of them one
    call of [getAppCustomize], one wait of 1000 ms and one retry notice,
    followed by one last call; the manifest writer and the downloader act
    only after that last call, so no retry ever repeats a write or a
    download; and the status objects created are exactly one per retry,
    holding [retryCount + 1] up to [retryCount + k]. *)
Theorem retries_then_one_attempt
    (kintoneApiClient : KintoneApiClient)
    (manifest : ImportCustomizeManifest) (status : loc) (options : Option)
    (w : World) (s : Status) :
  heap w !! status = Some s ->
  exists (k : nat) (evs : list Event) (tasks : list Task),
    k < Nat.max 1 (Z.to_nat (MAX_RETRY_COUNT - retryCount s)) /\
    forallb stage_event evs = true /\
    heap (snd (importCustomizeSetting kintoneApiClient manifest status
                 options w)) =
      heap w ++ retry_statuses (retryCount s) k /\
    fetches (snd (importCustomizeSetting kintoneApiClient manifest status
                    options w)) = fetches w + k + 1 /\
    trace (snd (importCustomizeSetting kintoneApiClient manifest status
                  options w)) =
      trace w ++
      retry_events (import_app manifest)
        (getBoundMessage (lang options) "E_Retry") k ++
      EvGetAppCustomize (import_app manifest) :: evs /\
    pending (snd (importCustomizeSetting kintoneApiClient manifest status
                    options w)) = pending w ++ tasks.
Proof.
  intros Hs.
  exact (importCustomizeSetting_shape kintoneApiClient manifest options
           _ status w s Hs (Nat.le_refl _)).
Qed.

(** *** Failures thrown by [getAppCustomize], one after another *)

Lemma after_no_retry appId notice count w :
  after_retries appId notice count 0 w = w.
Proof.
  unfold after_retries. cbn [retry_statuses retry_events].
  rewrite !app_nil_r, Nat.add_0_r. now destruct w.
Qed.

Lemma retry_statuses_last count k :
  retry_statuses count (S k) !! k =
  Some {| retryCount := count + Z.of_nat (S k) |}.
Proof.
  revert count. induction k as [|k IH]; intros count.
  - cbn [retry_statuses]. change ([{| retryCount := count + 1 |}] !! 0)
      with (Some {| retryCount := count + 1 |}).
    do 2 f_equal.
  - change (retry_statuses count (S (S k)) !! S k)
      with (retry_statuses (count + 1) (S k) !! k).
    rewrite IH. do 2 f_equal. lia.
Qed.

Lemma after_retries_status appId notice count k status w :
  heap w !! status = Some {| retryCount := count |} ->
  heap (after_retries appId notice count k w)
    !! nth_status status (length (heap w)) k =
  Some {| retryCount := count + Z.of_nat k |}.
Proof.
  intros Hs. destruct k as [|k].
  - rewrite after_no_retry. cbn [nth_status]. rewrite Hs.
    do 2 f_equal. lia.
  - cbn [after_retries heap nth_status].
    rewrite lookup_app_r by lia.
    replace (length (heap w) + k - length (heap w)) with k by lia.
    apply retry_statuses_last.
Qed.

(** After [k] failures thrown in a row, none of them an authentication
    failure and each met with retries left, the call stands where a call
    made with the [k]-th new status object would start. *)
Lemma importCustomizeSetting_after_throws
    kintoneApiClient manifest options (errors : nat -> JsError) :
  forall (k : nat) (status : loc) (w : World) (s : Status),
    heap w !! status = Some s ->
    (forall j : nat,
        j < k ->
        getAppCustomize kintoneApiClient (fetches w + j) (import_app manifest)
          = Thrown (errors j) /\
        isAuthenticationError (errors j) = false) ->
    k = 0 \/ (retryCount s + Z.of_nat k < MAX_RETRY_COUNT)%Z ->
    importCustomizeSetting kintoneApiClient manifest status options w =
    importCustomizeSetting kintoneApiClient manifest
      (nth_status status (length (heap w)) k) options
      (after_retries (import_app manifest)
         (getBoundMessage (lang options) "E_Retry") (retryCount s) k w).
Proof.
  intros k. revert errors.
  induction k as [|k IH]; intros errors status w s Hs Hthrown Hbudget.
  - now rewrite after_no_retry.
  - destruct Hbudget as [Hzero|Hbudget]; [discriminate|].
    destruct (Hthrown 0) as [Hfetch Hauth]; [lia|].
    rewrite Nat.add_0_r in Hfetch.
    rewrite (importCustomizeSetting_retry _ _ _ _ _ s (errors 0)
               (fetched (import_app manifest) w));
      [|assumption|now apply try_block_thrown|assumption|lia].
    cbn [fetched heap disk fetches trace pending].
    match goal with
    | |- importCustomizeSetting _ _ ?l _ ?w2 = _ =>
        rewrite (IH (fun j => errors (S j)) l w2
                   {| retryCount := retryCount s + 1 |})
    end.
    + cbn [heap retryCount]. rewrite length_app. cbn [length]. f_equal.
      * destruct k as [|k]; cbn [nth_status]; lia.
      * unfold after_retries.
        cbn [heap disk fetches trace pending retry_statuses retry_events].
        rewrite <- !app_assoc. cbn [List.app].
        replace (S (fetches w) + k) with (fetches w + S k) by lia.
        reflexivity.
    + cbn [heap]. rewrite lookup_app_r by lia. now rewrite Nat.sub_diag.
    + intros j Hj. cbn [fetches].
      replace (S (fetches w) + j) with (fetches w + S j) by lia.
      apply Hthrown. lia.
    + cbn [retryCount]. destruct k as [|k]; [now left|right; lia].
Qed.


(** X4. Failures thrown on the first [k] calls as before, followed by a
    call on which [getAppCustomize] throws an [AuthenticationError]: the
    import stops there, whatever retries are left, rejected with the
    localized authentication message; the error thrown is not passed on,
    and neither stage has run. *)
Theorem retried_until_authentication_failure
    (kintoneApiClient : KintoneApiClient)
    (manifest : ImportCustomizeManifest) (status : loc) (options : Option)
    (w : World) (s : Status) (e : JsError)
    (k : nat) (errors : nat -> JsError) :
  heap w !! status = Some s ->
  (forall j : nat,
      j < k ->
      getAppCustomize kintoneApiClient (fetches w + j) (import_app manifest)
        = Thrown (errors j) /\
      isAuthenticationError (errors j) = false) ->
  k = 0 \/ (retryCount s + Z.of_nat k < MAX_RETRY_COUNT)%Z ->
  getAppCustomize kintoneApiClient (fetches w + k) (import_app manifest) =
    Thrown e ->
  isAuthenticationError e = true ->
  importCustomizeSetting kintoneApiClient manifest status options w =
  (Rejected (Error (getBoundMessage (lang options) "E_Authentication")),
   {| heap := heap w ++ retry_statuses (retryCount s) k;
      disk := disk w;
      fetches := fetches w + k + 1;
      trace :=
        trace w ++
        retry_events (import_app manifest)
          (getBoundMessage (lang options) "E_Retry") k ++
        [EvGetAppCustomize (import_app manifest)];
      pending := pending w |}).
Proof.
  intros Hs Hthrown Hbudget Hfetch Hauth.
  destruct s as [count]. cbn [retryCount] in *.
  rewrite (importCustomizeSetting_after_throws _ _ _ errors k status w
             {| retryCount := count |}) by assumption.
  cbn [retryCount].
  rewrite (thrown_authentication_is_localized _ _ _ _ _
             {| retryCount := count + Z.of_nat k |} e);
    try assumption.
  - unfold fetched, after_retries. cbn [heap disk fetches trace pending].
    rewrite <- app_assoc, Nat.add_1_r. reflexivity.
  - now apply after_retries_status.
Qed.

(** X5. When [getAppCustomize] throws on every call and none of the
    errors is an authentication failure, the import gives up after
    [MAX_RETRY_COUNT - retryCount] calls (one call when that is not
    positive), and the error it is rejected with is the one thrown by the
    last call, unchanged; the earlier errors are lost. *)
Theorem gives_up_with_the_last_error
    (kintoneApiClient : KintoneApiClient)
    (manifest : ImportCustomizeManifest) (status : loc) (options : Option)
    (w : World) (s : Status) (errors : nat -> JsError) :
  heap w !! status = Some s ->
  (forall j : nat,
      getAppCustomize kintoneApiClient (fetches w + j) (import_app manifest)
        = Thrown (errors j) /\
      isAuthenticationError (errors j) = false) ->
  let k := Nat.max 1 (Z.to_nat (MAX_RETRY_COUNT - retryCount s)) - 1 in
  importCustomizeSetting kintoneApiClient manifest status options w =
  (Rejected (errors k),
   {| heap := heap w ++ retry_statuses (retryCount s) k;
      disk := disk w;
      fetches := fetches w + k + 1;
      trace :=
        trace w ++
        retry_events (import_app manifest)
          (getBoundMessage (lang options) "E_Retry") k ++
        [EvGetAppCustomize (import_app manifest)];
      pending := pending w |}).
Proof.
  intros Hs Hthrown.
  destruct s as [count]. cbn [retryCount] in *.
  set (k := Nat.max 1 (Z.to_nat (MAX_RETRY_COUNT - count)) - 1).
  rewrite (importCustomizeSetting_after_throws _ _ _ errors k status w
             {| retryCount := count |});
    [|assumption|intros j _; apply Hthrown
     |destruct (decide (k = 0)) as [Hzero|Hpos];
        [now left|right; subst k; cbn [retryCount]; lia]].
  cbn [retryCount].
  destruct (Hthrown k) as [Hfetch Hauth].
  rewrite (importCustomizeSetting_exhausted _ _ _ _ _
             {| retryCount := count + Z.of_nat k |} (errors k)
             (fetched (import_app manifest)
                (after_retries (import_app manifest)
                   (getBoundMessage (lang options) "E_Retry") count k w)));
    try assumption.
  - unfold fetched, after_retries. cbn [heap disk fetches trace pending].
    rewrite <- app_assoc, Nat.add_1_r. reflexivity.
  - now apply after_retries_status.
  - now apply try_block_thrown.
  - cbn [retryCount]. subst k. lia.
Qed.

(** *** When a stage fails *)

(** X6. When [destRootDir] is missing and [mkdirp.sync] cannot create it,
    [exportAsManifestFile] throws the error of [mkdirp.sync] and has not
    called [fs.writeFile]: nothing is pending, the disk is as it was. *)
Theorem exportAsManifestFile_fails_before_writing
    (appId destRootDir : string) (resp : GetAppCustomizeResp) (w : World)
    (e : JsError) :
  path_exists destRootDir (disk w) = false ->
  mkdirp_error (disk w) destRootDir = Some e ->
  fst (exportAsManifestFile appId destRootDir resp w) = Thrown e /\
  pending (snd (exportAsManifestFile appId destRootDir resp w)) = pending w /\
  disk (snd (exportAsManifestFile appId destRootDir resp w)) = disk w /\
  trace (snd (exportAsManifestFile appId destRootDir resp w)) =
    trace w ++ [EvMkdirpSync destRootDir].
Proof.
  intros Hmissing Hmkdirp. rewrite exportAsManifestFile_run. cbn zeta.
  rewrite Hmissing, Hmkdirp. repeat split.
Qed.

Lemma forEach_mkdirp_sync_fails pre path post e :
  forall w : World,
    (forall q : string, q ∈ pre -> mkdirp_error (disk w) q = None) ->
    mkdirp_error (disk w) path = Some e ->
    fst (forEach mkdirp_sync (pre ++ path :: post) w) = Thrown e /\
    pending (snd (forEach mkdirp_sync (pre ++ path :: post) w)) = pending w /\
    trace (snd (forEach mkdirp_sync (pre ++ path :: post) w)) =
      trace w ++ map EvMkdirpSync (pre ++ [path]).
Proof.
  induction pre as [|q pre IH]; intros w Hpre Hpath.
  - cbn [List.app forEach]. rewrite bind_run, mkdirp_sync_run, Hpath.
    repeat split.
  - cbn [List.app forEach]. rewrite bind_run, mkdirp_sync_run.
    rewrite (Hpre q) by apply list_elem_of_here.
    match goal with
    | |- context [forEach mkdirp_sync _ ?w1] =>
        destruct (IH w1) as (Hres & Hpending & Htrace)
    end.
    + intros q' Hq'. cbn [disk add_dir mkdirp_error]. apply Hpre.
      now apply list_elem_of_further.
    + exact Hpath.
    + rewrite Hres, Hpending, Htrace. cbn [trace pending map List.app].
      rewrite <- app_assoc. repeat split.
Qed.

(** X7. When one of the three directories cannot be created,
    [downloadCustomizeFiles] throws the error of that [mkdirp.sync] call;
    the directories after it are not tried and no download is started. *)
Theorem downloadCustomizeFiles_fails_before_downloading
    (kintoneApiClient : KintoneApiClient) (appId destDir : string)
    (resp : GetAppCustomizeResp) (w : World)
    (pre post : list string) (path : string) (e : JsError) :
  [ destDir +:+ sep +:+ "desktop" +:+ sep +:+ "js" +:+ sep;
    destDir +:+ sep +:+ "desktop" +:+ sep +:+ "css" +:+ sep;
    destDir +:+ sep +:+ "mobile" +:+ sep +:+ "js" +:+ sep ] =
    pre ++ path :: post ->
  (forall q : string, q ∈ pre -> mkdirp_error (disk w) q = None) ->
  mkdirp_error (disk w) path = Some e ->
  fst (downloadCustomizeFiles kintoneApiClient appId destDir resp w) =
    Thrown e /\
  pending (snd (downloadCustomizeFiles kintoneApiClient appId destDir resp w))
    = pending w /\
  trace (snd (downloadCustomizeFiles kintoneApiClient appId destDir resp w))
    = trace w ++ map EvMkdirpSync (pre ++ [path]).
Proof.
  intros Hdirs Hpre Hpath. unfold downloadCustomizeFiles.
  rewrite bind_run, Hdirs.
  destruct (forEach_mkdirp_sync_fails pre path post e w Hpre Hpath)
    as (Hres & Hpending & Htrace).
  destruct (forEach mkdirp_sync (pre ++ path :: post) w) as [[[]|e'] w1];
    cbn [fst snd] in *; [discriminate|].
  injection Hres as ->. repeat split; assumption.
Qed.

(** X8. When [downloadFile] throws while it is being called for an entry,
    the loop over the list ends with that error: the entries before it
    have had their download started and stay in flight, the entries after
    it are never asked for. *)
Theorem download_loop_stops_at_a_throw
    (kintoneApiClient : KintoneApiClient)
    (download : string -> Settled string) (destDir : string)
    (pre post : list CustomizeFile) (fileKey name : string) (e : JsError)
    (w : World) :
  (forall key display : string,
      UploadedFile key display ∈ pre ->
      downloadFile kintoneApiClient key = Returned (download key)) ->
  downloadFile kintoneApiClient fileKey = Thrown e ->
  forEach (downloadAndWriteFile kintoneApiClient destDir)
    (pre ++ UploadedFile fileKey name :: post) w =
  (Thrown e,
   {| heap := heap w; disk := disk w; fetches := fetches w;
      trace := trace w ++ download_calls pre ++ [EvDownloadFile fileKey];
      pending := pending w ++ download_tasks download destDir pre |}).
Proof.
  revert w. induction pre as [|f pre IH]; intros w Hpre Hthrow.
  - cbn [List.app forEach download_calls download_tasks flat_map].
    rewrite bind_run. cbn [downloadAndWriteFile].
    rewrite bind_run. unfold call_downloadFile.
    rewrite bind_run, Hthrow. cbn. now rewrite app_nil_r.
  - cbn [List.app forEach]. rewrite bind_run.
    assert (Hf : downloadAndWriteFile kintoneApiClient destDir f w =
                 (Returned tt,
                  {| heap := heap w; disk := disk w; fetches := fetches w;
                     trace := trace w ++ download_calls [f];
                     pending := pending w ++
                                download_tasks download destDir [f] |})).
    { destruct f as [key display|url]; cbn.
      - unfold call_downloadFile.
        rewrite (Hpre key display) by apply list_elem_of_here. reflexivity.
      - rewrite !app_nil_r. now destruct w. }
    rewrite Hf, IH; [|intros key display Hin; apply (Hpre key display);
                      now apply list_elem_of_further|assumption].
    cbn [heap disk fetches trace pending].
    unfold download_calls, download_tasks. cbn [flat_map].
    rewrite !app_nil_r, <- !app_assoc. reflexivity.
Qed.

(** *** The manifest and the downloads agree *)

Lemma download_tasks_paths download destDir entries :
  map task_path (download_tasks download destDir entries) =
  omap (file_path destDir) entries.
Proof.
  induction entries as [|f entries IH]; [reflexivity|].
  destruct f as [fileKey name|url]; cbn; now rewrite <- IH.
Qed.

(** X9. The local path the manifest records for an uploaded file is the
    path its download is written to: list by list and in list order, the
    paths of the writes the downloader leaves pending are the manifest's
    entries for the [FileRef]s. *)
Theorem manifest_paths_are_download_targets
    (kintoneApiClient : KintoneApiClient)
    (download : string -> Settled string) (appId destDir : string)
    (resp : GetAppCustomizeResp) (w : World) :
  (forall fileKey : string,
      downloadFile kintoneApiClient fileKey = Returned (download fileKey)) ->
  (forall path : string, mkdirp_error (disk w) path = None) ->
  let js := destDir +:+ sep +:+ "desktop" +:+ sep +:+ "js" in
  let css := destDir +:+ sep +:+ "desktop" +:+ sep +:+ "css" in
  let mjs := destDir +:+ sep +:+ "mobile" +:+ sep +:+ "js" in
  let manifest := customizeJson appId destDir resp in
  (manifest_desktop_js manifest = map (toNameOrUrl js) (desktop_js resp) /\
   manifest_desktop_css manifest = map (toNameOrUrl css) (desktop_css resp) /\
   manifest_mobile_js manifest = map (toNameOrUrl mjs) (mobile_js resp)) /\
  exists tasks : list Task,
    pending (snd (downloadCustomizeFiles kintoneApiClient appId destDir
                    resp w)) = pending w ++ tasks /\
    map task_path tasks =
      omap (file_path js) (desktop_js resp) ++
      omap (file_path css) (desktop_css resp) ++
      omap (file_path mjs) (mobile_js resp).
Proof.
  intros Hdownload Hmkdirp js css mjs manifest.
  split; [repeat split|].
  rewrite (downloadCustomizeFiles_run _ download Hdownload) by apply Hmkdirp.
  cbn [snd pending]. eexists. split; [reflexivity|].
  rewrite !map_app, !download_tasks_paths. reflexivity.
Qed.

(** *** Once everything pending has completed *)

Lemma settle_incidents order :
  forall d : FileSystem,
    (forall path : string, writeFile_error d path = None) ->
    snd (settle order d) = rejections order.
Proof.
  induction order as [|t order IH]; intros d Hd; [reflexivity|].
  cbn [settle rejections flat_map].
  destruct t as [path data|[resp|e] path]; cbn [run_task].
  - rewrite write_file_fields by apply Hd. now rewrite IH.
  - rewrite write_file_fields by apply Hd. now rewrite IH.
  - specialize (IH d Hd). destruct (settle order d) as [d' incidents].
    cbn [snd] in *. now rewrite IH.
Qed.

Lemma download_task_pending download appId destDir resp slot fileKey name :
  1 <= slot <= 3 ->
  UploadedFile fileKey name ∈ entries_of resp slot ->
  ThenWriteFile (download fileKey) (target destDir slot name)
    ∈ import_tasks download appId destDir resp.
Proof.
  intros Hslot Hin. unfold import_tasks. apply list_elem_of_further.
  rewrite !elem_of_app, !elem_of_download_tasks.
  destruct slot as [|[|[|[|]]]]; try lia; cbn [entries_of target] in *;
    [left|right; left|right; right]; eauto.
Qed.

(** The manifest is where it was written when no uploaded file is
    written to its file. *)
Lemma completed_manifest_file
    (realpath : string -> string)
    (kintoneApiClient : KintoneApiClient)
    (download : string -> Settled string)
    (manifest : ImportCustomizeManifest) (status : loc) (options : Option)
    (w : World) (s : Status) (resp : GetAppCustomizeResp) :
  (forall fileKey : string,
      downloadFile kintoneApiClient fileKey = Returned (download fileKey)) ->
  heap w !! status = Some s ->
  getAppCustomize kintoneApiClient (fetches w) (import_app manifest) =
    Returned (Resolved resp) ->
  pending w = [] ->
  (forall path : string, mkdirp_error (disk w) path = None) ->
  (forall path : string, writeFile_error (disk w) path = None) ->
  manifest_apart realpath (destDir options) resp ->
  forall order : list Task,
    order ≡ₚ
      pending (snd (importCustomizeSetting kintoneApiClient manifest status
                      options w)) ->
    files
      (fst (complete realpath order
              (disk (snd (importCustomizeSetting kintoneApiClient manifest
                            status options w)))))
    !! realpath (destDir options +:+ sep +:+ "customize-manifest.json") =
    Some (JSON.stringify
            (manifest_to_JSON
               (customizeJson (import_app manifest) (destDir options) resp))
            4).
Proof.
  intros Hdownload Hs Hfetch Hpending Hmkdirp Hwrite Hapart order.
  rewrite (importCustomizeSetting_success _ download _ _ _ w s resp)
    by assumption.
  cbn [snd pending disk]. rewrite Hpending. cbn [List.app]. intros Horder.
  destruct (import_disk_fields (destDir options) (disk w))
    as (_ & _ & Hwr).
  rewrite complete_files by (intros p; rewrite Hwr; apply Hwrite).
  destruct (last_write _ _) as [data|] eqn:Hlast.
  - apply last_write_Some in Hlast. destruct Hlast as (t' & Hin' & Hw').
    apply list_elem_of_fmap in Hin'. destruct Hin' as (t & -> & Hin).
    rewrite Horder in Hin. rewrite task_write_resolve in Hw'.
    destruct (task_write t) as [[path data']|] eqn:Ht; [|discriminate].
    injection Hw' as Hfile <-.
    destruct (import_tasks_write _ _ _ _ _ _ _ Hin Ht)
      as (slot & name & Hslot & -> & Hcase).
    destruct Hcase as [[_ ->]|[Hnz (fileKey & Hentry & _)]]; [reflexivity|].
    exfalso. apply (Hapart slot fileKey name); [lia|assumption|assumption].
  - exfalso.
    eapply (last_write_None _ _ Hlast
              (resolve_task realpath
                 (WriteFile
                    (destDir options +:+ sep +:+ "customize-manifest.json")
                    _))).
    + apply list_elem_of_fmap. eexists. split; [reflexivity|].
      rewrite Horder. unfold import_tasks. apply list_elem_of_here.
    + reflexivity.
Qed.

(** X10. After an import in which nothing fails, and with nothing else
    pending, the file of [destDir/customize-manifest.json] holds the
    manifest text once the pending writes have completed, in whatever
    order they do, provided that no uploaded file's display name makes
    its target [destDir/<list>/<name>] a path of that same file (as the
    name [../../customize-manifest.json] does: the name is spliced into
    the path unchecked). *)
Theorem manifest_file_after_completion
    (realpath : string -> string)
    (kintoneApiClient : KintoneApiClient)
    (download : string -> Settled string)
    (manifest : ImportCustomizeManifest) (status : loc) (options : Option)
    (w : World) (s : Status) (resp : GetAppCustomizeResp) :
  (forall fileKey : string,
      downloadFile kintoneApiClient fileKey = Returned (download fileKey)) ->
  heap w !! status = Some s ->
  getAppCustomize kintoneApiClient (fetches w) (import_app manifest) =
    Returned (Resolved resp) ->
  pending w = [] ->
  (forall path : string, mkdirp_error (disk w) path = None) ->
  (forall path : string, writeFile_error (disk w) path = None) ->
  manifest_apart realpath (destDir options) resp ->
  forall order : list Task,
    order ≡ₚ
      pending (snd (importCustomizeSetting kintoneApiClient manifest status
                      options w)) ->
    files
      (fst (complete realpath order
              (disk (snd (importCustomizeSetting kintoneApiClient manifest
                            status options w)))))
    !! realpath (destDir options +:+ sep +:+ "customize-manifest.json") =
    Some (JSON.stringify
            (manifest_to_JSON
               (customizeJson (import_app manifest) (destDir options) resp))
            4).
Proof.
  intros Hdownload Hs Hfetch Hpending Hmkdirp Hwrite Hapart order Horder.
  now apply (completed_manifest_file realpath kintoneApiClient download
               manifest status options w s resp).
Qed.

(** X11. After an import in which nothing fails, and with nothing else
    pending: when any two writes of the run that reach the same file
    carry the same content, the file that [destDir/<list>/<name>] names
    holds the content downloaded for the entry's file key once the
    pending writes have completed, in whatever order they do. *)
Theorem asset_file_after_completion
    (realpath : string -> string)
    (kintoneApiClient : KintoneApiClient)
    (download : string -> Settled string)
    (manifest : ImportCustomizeManifest) (status : loc) (options : Option)
    (w : World) (s : Status) (resp : GetAppCustomizeResp)
    (slot : nat) (fileKey name content : string) :
  (forall key : string,
      downloadFile kintoneApiClient key = Returned (download key)) ->
  heap w !! status = Some s ->
  getAppCustomize kintoneApiClient (fetches w) (import_app manifest) =
    Returned (Resolved resp) ->
  pending w = [] ->
  (forall path : string, mkdirp_error (disk w) path = None) ->
  (forall path : string, writeFile_error (disk w) path = None) ->
  1 <= slot <= 3 ->
  agree_on realpath
    (import_tasks download (import_app manifest) (destDir options) resp) ->
  UploadedFile fileKey name ∈ entries_of resp slot ->
  download fileKey = Resolved content ->
  forall order : list Task,
    order ≡ₚ
      pending (snd (importCustomizeSetting kintoneApiClient manifest status
                      options w)) ->
    files
      (fst (complete realpath order
              (disk (snd (importCustomizeSetting kintoneApiClient manifest
                            status options w)))))
    !! realpath (target (destDir options) slot name) = Some content.
Proof.
  intros Hdownload Hs Hfetch Hpending Hmkdirp Hwrite Hslot Hagree Hentry
         Hcontent order.
  rewrite (importCustomizeSetting_success _ download _ _ _ w s resp)
    by assumption.
  cbn [snd pending disk]. rewrite Hpending. cbn [List.app]. intros Horder.
  destruct (import_disk_fields (destDir options) (disk w))
    as (_ & _ & Hwr).
  apply (complete_write realpath
           (import_tasks download (import_app manifest) (destDir options)
              resp)
           order _
           (ThenWriteFile (download fileKey)
              (target (destDir options) slot name))).
  - assumption.
  - intros t. now rewrite Horder.
  - intros p. rewrite Hwr. apply Hwrite.
  - now apply download_task_pending.
  - cbn [task_write]. now rewrite Hcontent.
Qed.

(** X12. A download that is rejected does not fail the import: the call
    is fulfilled all the same, and the rejection surfaces only as an
    unhandled rejection when the pending operations complete. *)
Theorem rejected_download_goes_unnoticed
    (kintoneApiClient : KintoneApiClient)
    (download : string -> Settled string)
    (manifest : ImportCustomizeManifest) (status : loc) (options : Option)
    (w : World) (s : Status) (resp : GetAppCustomizeResp)
    (slot : nat) (fileKey name : string) (e : JsError) :
  (forall key : string,
      downloadFile kintoneApiClient key = Returned (download key)) ->
  heap w !! status = Some s ->
  getAppCustomize kintoneApiClient (fetches w) (import_app manifest) =
    Returned (Resolved resp) ->
  (forall path : string, mkdirp_error (disk w) path = None) ->
  (forall path : string, writeFile_error (disk w) path = None) ->
  1 <= slot <= 3 ->
  UploadedFile fileKey name ∈ entries_of resp slot ->
  download fileKey = Rejected e ->
  fst (importCustomizeSetting kintoneApiClient manifest status options w) =
    Resolved tt /\
  forall order : list Task,
    order ≡ₚ
      pending (snd (importCustomizeSetting kintoneApiClient manifest status
                      options w)) ->
    UnhandledRejection e
      ∈ snd (settle order
               (disk (snd (importCustomizeSetting kintoneApiClient manifest
                             status options w)))).
Proof.
  intros Hdownload Hs Hfetch Hmkdirp Hwrite Hslot Hentry Hrejected.
  rewrite (importCustomizeSetting_success _ download _ _ _ w s resp)
    by assumption.
  cbn [fst snd pending disk]. split; [reflexivity|]. intros order Horder.
  destruct (import_disk_fields (destDir options) (disk w))
    as (_ & _ & Hwr).
  rewrite settle_incidents by (intros p; rewrite Hwr; apply Hwrite).
  unfold rejections. rewrite list_elem_of_In, in_flat_map.
  exists (ThenWriteFile (Rejected e) (target (destDir options) slot name)).
  split; [|now left].
  apply list_elem_of_In. rewrite Horder, elem_of_app. right.
  rewrite <- Hrejected. now apply download_task_pending.
Qed.

(** *** What the manifest does not record, and what is never fetched *)

Lemma toNameOrUrl_rekey key destDir f :
  toNameOrUrl destDir (rekey_file key f) = toNameOrUrl destDir f.
Proof. now destruct f. Qed.

(** X13. File keys are never persisted: for two remote configurations
    that differ only in their file keys, [exportAsManifestFile] does the
    same calls and writes the same text. *)
Theorem manifest_ignores_file_keys
    (key : string -> string) (appId destRootDir : string)
    (resp : GetAppCustomizeResp) (w : World) :
  customizeJson appId destRootDir (rekey key resp) =
    customizeJson appId destRootDir resp /\
  snd (exportAsManifestFile appId destRootDir (rekey key resp) w) =
    snd (exportAsManifestFile appId destRootDir resp w).
Proof.
  assert (Hjson : customizeJson appId destRootDir (rekey key resp) =
                  customizeJson appId destRootDir resp).
  { unfold customizeJson, rekey.
    cbn [scope desktop_js desktop_css mobile_js].
    rewrite !map_map.
    f_equal; apply map_ext; intros f; apply toNameOrUrl_rekey. }
  split; [exact Hjson|].
  rewrite !exportAsManifestFile_run. cbn zeta. rewrite Hjson.
  destruct (path_exists destRootDir (disk w)); [reflexivity|].
  destruct (mkdirp_error (disk w) destRootDir); reflexivity.
Qed.




(** *** [runImport] *)

Lemma readFileSync_run path w :
  readFileSync path w =
  match files (disk w) !! path with
  | Some text => (Returned text, w)
  | None =>
      (Thrown
         (Error ("ENOENT: no such file or directory, open '" +:+ path +:+
                 "'")),
       w)
  end.
Proof. reflexivity. Qed.

(** A manifest file that is read and parsed: [runImport] is the import
    with a new status object whose [retryCount] is 0. *)
Lemma runImport_parsed
    (JSON_parse : string -> Completion ImportCustomizeManifest)
    (new_KintoneApiClient :
      string -> string -> option string -> option string -> string ->
      Option -> KintoneApiClient)
    domain username password basicAuthUsername basicAuthPassword
    manifestFile options w text manifest :
  files (disk w) !! manifestFile = Some text ->
  JSON_parse text = Returned manifest ->
  runImport JSON_parse new_KintoneApiClient domain username password
    basicAuthUsername basicAuthPassword manifestFile options w =
  importCustomizeSetting
    (new_KintoneApiClient username password basicAuthUsername
       basicAuthPassword domain options)
    manifest (length (heap w)) options
    {| heap := heap w ++ [{| retryCount := 0 |}]; disk := disk w;
       fetches := fetches w; trace := trace w; pending := pending w |}.
Proof.
  intros Hfile Hparse. unfold runImport.
  now rewrite readFileSync_run, Hfile, Hparse.
Qed.

(** X15. When the manifest file does not exist, or its text is refused by
    [JSON.parse], [runImport] is rejected with the error of the read or of
    the parse and has done nothing else: no status object, no client
    call, no change to the disk. *)
Theorem runImport_without_a_manifest
    (JSON_parse : string -> Completion ImportCustomizeManifest)
    (new_KintoneApiClient :
      string -> string -> option string -> option string -> string ->
      Option -> KintoneApiClient)
    (domain username password : string)
    (basicAuthUsername basicAuthPassword : option string)
    (manifestFile : string) (options : Option) (w : World) (e : JsError) :
  files (disk w) !! manifestFile = None /\
    e = Error ("ENOENT: no such file or directory, open '" +:+
               manifestFile +:+ "'") \/
  (exists text : string,
      files (disk w) !! manifestFile = Some text /\
      JSON_parse text = Thrown e) ->
  runImport JSON_parse new_KintoneApiClient domain username password
    basicAuthUsername basicAuthPassword manifestFile options w =
  (Rejected e, w).
Proof.
  unfold runImport. rewrite readFileSync_run.
  intros [[Hmissing ->]|(text & Hfile & Hparse)].
  - now rewrite Hmissing.
  - now rewrite Hfile, Hparse.
Qed.

(** X16. A run of [runImport] over a manifest that parses starts with the
    whole retry budget whatever ran before: it creates its own status
    object with [retryCount = 0], which still holds 0 when the run has
    settled; it calls [getAppCustomize] at least once and at most
    [MAX_RETRY_COUNT] times (once when that is not positive); and the
    status objects that existed before are as they were. *)
Theorem runImport_starts_with_a_full_budget
    (JSON_parse : string -> Completion ImportCustomizeManifest)
    (new_KintoneApiClient :
      string -> string -> option string -> option string -> string ->
      Option -> KintoneApiClient)
    (domain username password : string)
    (basicAuthUsername basicAuthPassword : option string)
    (manifestFile : string) (options : Option) (w : World)
    (text : string) (manifest : ImportCustomizeManifest) :
  files (disk w) !! manifestFile = Some text ->
  JSON_parse text = Returned manifest ->
  exists (k : nat) (evs : list Event),
    k < Nat.max 1 (Z.to_nat MAX_RETRY_COUNT) /\
    forallb stage_event evs = true /\
    heap (snd (runImport JSON_parse new_KintoneApiClient domain username
                 password basicAuthUsername basicAuthPassword manifestFile
                 options w)) =
      heap w ++ {| retryCount := 0 |} :: retry_statuses 0 k /\
    fetches (snd (runImport JSON_parse new_KintoneApiClient domain username
                    password basicAuthUsername basicAuthPassword
                    manifestFile options w)) = fetches w + k + 1 /\
    trace (snd (runImport JSON_parse new_KintoneApiClient domain username
                  password basicAuthUsername basicAuthPassword manifestFile
                  options w)) =
      trace w ++
      retry_events (import_app manifest)
        (getBoundMessage (lang options) "E_Retry") k ++
      EvGetAppCustomize (import_app manifest) :: evs.
Proof.
  intros Hfile Hparse.
  rewrite (runImport_parsed _ _ _ _ _ _ _ _ _ _ text manifest) by assumption.
  assert (Hstatus :
            (heap w ++ [{| retryCount := 0 |}]) !! length (heap w) =
            Some {| retryCount := 0 |}).
  { rewrite lookup_app_r by lia. now rewrite Nat.sub_diag. }
  match goal with
  | |- context [importCustomizeSetting ?c _ ?l _ ?w2] =>
      destruct (importCustomizeSetting_shape c manifest options _ l w2
                  {| retryCount := 0 |} Hstatus (Nat.le_refl _))
        as (k & evs & tasks & Hk & Hev & Hh & Hf & Ht & _)
  end.
  cbn [retryCount heap fetches trace] in *.
  rewrite Z.sub_0_r in Hk.
  exists k, evs. rewrite Hh, Hf, Ht, <- app_assoc.
  repeat split; assumption.
Qed.

Lemma retry_events_then_fetch appId notice k evs :
  exists rest : list Event,
    retry_events appId notice k ++ EvGetAppCustomize appId :: evs =
    EvGetAppCustomize appId :: rest.
Proof. destruct k as [|k]; cbn; eauto. Qed.

(** X17. The manifest an import writes is the manifest the next run
    reads: after an import in which nothing fails, once its writes have
    completed in whatever order, and provided that no uploaded file was
    written to the manifest's file, [runImport] on that file reads the
    text that was written, and, [JSON.parse] accepting it, goes on to
    call [getAppCustomize] for the app the parsed manifest names. *)
Theorem runImport_reads_the_written_manifest
    (realpath : string -> string)
    (JSON_parse : string -> Completion ImportCustomizeManifest)
    (new_KintoneApiClient :
      string -> string -> option string -> option string -> string ->
      Option -> KintoneApiClient)
    (domain username password : string)
    (basicAuthUsername basicAuthPassword : option string)
    (next_options : Option)
    (kintoneApiClient : KintoneApiClient)
    (download : string -> Settled string)
    (manifest parsed : ImportCustomizeManifest) (status : loc)
    (options : Option) (w : World) (s : Status)
    (resp : GetAppCustomizeResp) (order : list Task) :
  (forall fileKey : string,
      downloadFile kintoneApiClient fileKey = Returned (download fileKey)) ->
  heap w !! status = Some s ->
  getAppCustomize kintoneApiClient (fetches w) (import_app manifest) =
    Returned (Resolved resp) ->
  pending w = [] ->
  (forall path : string, mkdirp_error (disk w) path = None) ->
  (forall path : string, writeFile_error (disk w) path = None) ->
  manifest_apart realpath (destDir options) resp ->
  order ≡ₚ
    pending (snd (importCustomizeSetting kintoneApiClient manifest status
                    options w)) ->
  JSON_parse
    (JSON.stringify
       (manifest_to_JSON
          (customizeJson (import_app manifest) (destDir options) resp)) 4) =
    Returned parsed ->
  let imported :=
    snd (importCustomizeSetting kintoneApiClient manifest status options w) in
  let completed :=
    set_disk (fst (complete realpath order (disk imported))) imported in
  exists evs : list Event,
    trace
      (snd (runImport JSON_parse new_KintoneApiClient domain username
              password basicAuthUsername basicAuthPassword
              (realpath
                 (destDir options +:+ sep +:+ "customize-manifest.json"))
              next_options completed)) =
    trace completed ++ EvGetAppCustomize (import_app parsed) :: evs.
Proof.
  intros Hdownload Hs Hfetch Hpending Hmkdirp Hwrite Hapart Horder Hparse
         imported completed.
  pose proof (completed_manifest_file realpath kintoneApiClient download
                manifest status options w s resp Hdownload Hs Hfetch
                Hpending Hmkdirp Hwrite Hapart order Horder) as Hfile.
  fold imported in Hfile.
  rewrite (runImport_parsed JSON_parse new_KintoneApiClient domain username
             password basicAuthUsername basicAuthPassword _ next_options
             completed _ parsed Hfile Hparse).
  assert (Hstatus :
            (heap completed ++ [{| retryCount := 0 |}])
              !! length (heap completed) = Some {| retryCount := 0 |}).
  { rewrite lookup_app_r by lia. now rewrite Nat.sub_diag. }
  match goal with
  | |- context [importCustomizeSetting ?c _ ?l _ ?w2] =>
      destruct (importCustomizeSetting_shape c parsed next_options _ l w2
                  {| retryCount := 0 |} Hstatus (Nat.le_refl _))
        as (k & evs & tasks & _ & _ & _ & _ & Ht & _)
  end.
  cbn [trace] in Ht. rewrite Ht.
  destruct (retry_events_then_fetch (import_app parsed)
              (getBoundMessage (lang next_options) "E_Retry") k evs)
    as (rest & ->).
  now exists rest.
Qed.

End Importing.

(** ** The facts at sample inputs *)

Lemma stringify_sample :
  JSON.stringify
    (manifest_to_JSON
       {| app := "1"; manifest_scope := ALL;
          manifest_desktop_js := ["https://cdn/x.js"; "d/desktop/js/a.js"];
          manifest_desktop_css := []; manifest_mobile_js := [] |}) 4
  = "{" +:+ LF +:+
    "    " +:+ DQUOTE +:+ "app" +:+ DQUOTE +:+ ": " +:+
      DQUOTE +:+ "1" +:+ DQUOTE +:+ "," +:+ LF +:+
    "    " +:+ DQUOTE +:+ "scope" +:+ DQUOTE +:+ ": " +:+
      DQUOTE +:+ "ALL" +:+ DQUOTE +:+ "," +:+ LF +:+
    "    " +:+ DQUOTE +:+ "desktop" +:+ DQUOTE +:+ ": {" +:+ LF +:+
    "        " +:+ DQUOTE +:+ "js" +:+ DQUOTE +:+ ": [" +:+ LF +:+
    "            " +:+ DQUOTE +:+ "https://cdn/x.js" +:+ DQUOTE +:+ "," +:+ LF +:+
    "            " +:+ DQUOTE +:+ "d/desktop/js/a.js" +:+ DQUOTE +:+ LF +:+
    "        ]," +:+ LF +:+
    "        " +:+ DQUOTE +:+ "css" +:+ DQUOTE +:+ ": []" +:+ LF +:+
    "    }," +:+ LF +:+
    "    " +:+ DQUOTE +:+ "mobile" +:+ DQUOTE +:+ ": {" +:+ LF +:+
    "        " +:+ DQUOTE +:+ "js" +:+ DQUOTE +:+ ": []" +:+ LF +:+
    "    }" +:+ LF +:+
    "}".
Proof. reflexivity. Qed.

(** With three attempts allowed and a client that throws on every call,
    three calls are made, each retry after a wait and a notice. *)
Lemma throwing_client_trace :
  let result :=
    importCustomizeSetting "/" 3 Samples.messages
      (Samples.throwing (Error "boom")) Samples.manifest 0 Samples.options
      (Samples.world 0 Samples.empty_disk) in
  fst result = Rejected (Error "boom") /\
  trace (snd result) =
    [EvGetAppCustomize "1"; EvWait 1000; EvConsoleLog "en:E_Retry";
     EvGetAppCustomize "1"; EvWait 1000; EvConsoleLog "en:E_Retry";
     EvGetAppCustomize "1"] /\
  heap (snd result) =
    [{| retryCount := 0 |}; {| retryCount := 1 |}; {| retryCount := 2 |}].
Proof. vm_compute. repeat split. Qed.

Lemma rejected_fetch_is_not_retried_witness :
  importCustomizeSetting "/" 3 Samples.messages
    (Samples.rejecting (Error "boom")) Samples.manifest 0 Samples.options
    (Samples.world 0 Samples.empty_disk) =
  (Rejected (Error "boom"),
   fetched "1" (Samples.world 0 Samples.empty_disk)).
Proof.
  apply (rejected_fetch_is_not_retried "/" 3 Samples.messages
           (Samples.rejecting (Error "boom")) Samples.manifest 0
           Samples.options (Samples.world 0 Samples.empty_disk)
           {| retryCount := 0 |} (Error "boom")).
  - reflexivity.
  - reflexivity.
  - reflexivity.
  - reflexivity.
Defined.

Lemma rejected_authentication_is_not_localized_witness :
  importCustomizeSetting "/" 3 Samples.messages
    (Samples.rejecting (AuthenticationError "401")) Samples.manifest 0
    Samples.options (Samples.world 0 Samples.empty_disk) =
  (Rejected (AuthenticationError "401"),
   fetched "1" (Samples.world 0 Samples.empty_disk)).
Proof.
  apply (rejected_authentication_is_not_localized "/" 3 Samples.messages
           (Samples.rejecting (AuthenticationError "401")) Samples.manifest 0
           Samples.options (Samples.world 0 Samples.empty_disk)
           {| retryCount := 0 |} "401").
  - reflexivity.
  - reflexivity.
Defined.

Lemma exhausted_budget_propagates_original_error_witness :
  importCustomizeSetting "/" 3 Samples.messages
    (Samples.throwing (Error "boom")) Samples.manifest 0 Samples.options
    (Samples.world 2 Samples.empty_disk) =
  (Rejected (Error "boom"),
   fetched "1" (Samples.world 2 Samples.empty_disk)).
Proof.
  apply (exhausted_budget_propagates_original_error "/" 3 Samples.messages
           (Samples.throwing (Error "boom")) Samples.manifest 0
           Samples.options (Samples.world 2 Samples.empty_disk)
           (fetched "1" (Samples.world 2 Samples.empty_disk))
           {| retryCount := 2 |} (Error "boom")).
  - reflexivity.
  - reflexivity.
  - discriminate.
  - left. reflexivity.
Defined.

Lemma exportAsManifestFile_persists_witness :
  exists w' : World,
    exportAsManifestFile "/" "1" "dest" Samples.resp
      (Samples.world 0 Samples.empty_disk) = (Returned Samples.resp, w') /\
    path_exists "dest" (disk w') = true /\
    trace w' =
      [EvMkdirpSync "dest";
       EvWriteFile "dest/customize-manifest.json"
         (four_space_layout (customizeJson "/" "1" "dest" Samples.resp))].
Proof.
  destruct (exportAsManifestFile_persists "/" "1" "dest" Samples.resp
              (Samples.world 0 Samples.empty_disk))
    as (w' & Hrun & Hdir & Htrace & _ & Htext & _).
  - right. reflexivity.
  - exists w'. split; [exact Hrun|]. split; [exact Hdir|].
    rewrite Htrace, Htext. reflexivity.
Defined.

Lemma downloadCustomizeFiles_effects_witness :
  exists w' : World,
    downloadCustomizeFiles "/" (Samples.serving Samples.resp) "1" "dest"
      Samples.resp (Samples.world 0 Samples.empty_disk) = (Returned tt, w') /\
    trace w' =
      [EvMkdirpSync "dest/desktop/js/"; EvMkdirpSync "dest/desktop/css/";
       EvMkdirpSync "dest/mobile/js/";
       EvDownloadFile "k1"; EvDownloadFile "k2"] /\
    pending w' =
      [ThenWriteFile (Resolved "content of k1") "dest/desktop/js/a.js";
       ThenWriteFile (Resolved "content of k2") "dest/desktop/css/a.css"].
Proof.
  destruct (downloadCustomizeFiles_effects "/"
              (Samples.serving Samples.resp) Samples.content
              (fun fileKey => eq_refl) "1" "dest" Samples.resp
              (Samples.world 0 Samples.empty_disk))
    as (w' & Hrun & Htrace & _ & _ & Hpending & _).
  - reflexivity.
  - reflexivity.
  - reflexivity.
  - exists w'. split; [exact Hrun|]. rewrite Htrace, Hpending.
    split; reflexivity.
Defined.

Lemma manifest_write_failure_is_not_seen_witness :
  exists w' : World,
    importCustomizeSetting "/" 3 Samples.messages
      (Samples.serving Samples.resp) Samples.manifest 0 Samples.options
      (Samples.world 0 Samples.read_only_manifest) = (Resolved tt, w') /\
    fetches w' = 1 /\
    run_task
      (WriteFile "dest/customize-manifest.json"
         (JSON.stringify
            (manifest_to_JSON (customizeJson "/" "1" "dest" Samples.resp)) 4))
      (disk w') =
    (disk w', Some (UncaughtException (Error "EACCES"))).
Proof.
  destruct (manifest_write_failure_is_not_seen "/" 3 Samples.messages
              (Samples.serving Samples.resp) Samples.content
              Samples.manifest 0 Samples.options
              (Samples.world 0 Samples.read_only_manifest)
              {| retryCount := 0 |} Samples.resp (Error "EACCES"))
    as (w' & Hrun & Hfetches & _ & _ & Hcrash).
  - intros fileKey. reflexivity.
  - reflexivity.
  - reflexivity.
  - intros p. reflexivity.
  - reflexivity.
  - exists w'. split; [exact Hrun|]. split; [exact Hfetches|exact Hcrash].
Defined.


(** The condition is on the files, not on the names: on a disk that
    ignores letter case, [a.js] and [A.js] are two names of one list and
    one file, which holds the content of whichever download completes
    last. *)
Lemma letter_case_breaks_idempotence :
  same_name_same_content Samples.content (desktop_js Cases.two_cases) /\
  ~ pipeline_idempotent_on "/" 3 Samples.messages Cases.folding
      (Samples.serving Cases.two_cases) Samples.manifest 0 Samples.options
      (Samples.world 0 Samples.empty_disk).
Proof.
  split.
  { intros k1 k2 name H1 H2. cbn in H1, H2.
    apply list_elem_of_In in H1, H2. cbn in H1, H2.
    destruct H1 as [H1|[H1|[]]]; destruct H2 as [H2|[H2|[]]];
      congruence. }
  unfold pipeline_idempotent_on. cbv zeta. intros Hidem.
  set (once :=
         snd (importCustomizeSetting "/" 3 Samples.messages
                (Samples.serving Cases.two_cases) Samples.manifest 0
                Samples.options (Samples.world 0 Samples.empty_disk))) in *.
  set (twice :=
         snd (importCustomizeSetting "/" 3 Samples.messages
                (Samples.serving Cases.two_cases) Samples.manifest 0
                Samples.options once)) in *.
  assert (Htwice : pending twice = pending once ++ pending once)
    by (vm_compute; reflexivity).
  specialize (Hidem (pending once) (pending once ++ reverse (pending once))).
  rewrite Htwice in Hidem.
  assert (Hfiles := Hidem (reflexivity _)
                      (Permutation_app_head _ (reverse_Permutation _))).
  apply (f_equal (fun m : gmap string string => m !! "dest/desktop/js/a.js"))
    in Hfiles.
  vm_compute in Hfiles. discriminate Hfiles.
Qed.


Lemma status_is_never_mutated_witness :
  heap (snd (importCustomizeSetting "/" 3 Samples.messages
               (Samples.throwing (Error "boom")) Samples.manifest 0
               Samples.options (Samples.world 0 Samples.empty_disk))) !! 0 =
    Some {| retryCount := 0 |} /\
  importCustomizeSetting "/" 3 Samples.messages
    (Samples.throwing (Error "boom")) Samples.manifest 0 Samples.options
    (Samples.world 0 Samples.empty_disk) =
  importCustomizeSetting "/" 3 Samples.messages
    (Samples.throwing (Error "boom")) Samples.manifest 1 Samples.options
    (snd (new_status {| retryCount := 1 |}
            (announce_retry Samples.messages Samples.options
               (fetched "1" (Samples.world 0 Samples.empty_disk))))).
Proof.
  destruct (status_is_never_mutated "/" 3 Samples.messages
              (Samples.throwing (Error "boom")) Samples.manifest 0
              Samples.options (Samples.world 0 Samples.empty_disk))
    as [Hframe Hretry].
  split.
  - apply Hframe. reflexivity.
  - destruct (Hretry {| retryCount := 0 |} (Error "boom")
                (fetched "1" (Samples.world 0 Samples.empty_disk)))
      as (_ & _ & Hcall).
    + reflexivity.
    + reflexivity.
    + reflexivity.
    + reflexivity.
    + exact Hcall.
Defined.

Lemma attempts_are_bounded_witness :
  exists calls : nat,
    fetches
      (snd (importCustomizeSetting "/" 3 Samples.messages
              Cases.never_answering Samples.manifest 0 Samples.options
              (Samples.world 1 Samples.empty_disk))) = 0 + calls /\
    1 <= calls <= 2.
Proof.
  destruct (attempts_are_bounded "/" 3 Samples.messages
              Cases.never_answering Samples.manifest 0 Samples.options
              (Samples.world 1 Samples.empty_disk) {| retryCount := 1 |})
    as (calls & evs & _ & Hfetches & _ & Hbound & _).
  - reflexivity.
  - exists calls. split; [exact Hfetches|exact Hbound].
Defined.

Lemma retries_then_one_attempt_witness :
  exists (k : nat) (evs : list Event),
    k < 3 /\
    forallb stage_event evs = true /\
    trace
      (snd (importCustomizeSetting "/" 3 Samples.messages
              (Cases.flaky Samples.resp) Samples.manifest 0 Samples.options
              (Samples.world 0 Samples.empty_disk))) =
    retry_events "1" "en:E_Retry" k ++ EvGetAppCustomize "1" :: evs.
Proof.
  destruct (retries_then_one_attempt "/" 3 Samples.messages
              (Cases.flaky Samples.resp) Samples.manifest 0 Samples.options
              (Samples.world 0 Samples.empty_disk) {| retryCount := 0 |})
    as (k & evs & tasks & Hk & Hev & _ & _ & Htrace & _).
  - reflexivity.
  - exists k, evs. split; [exact Hk|]. split; [exact Hev|exact Htrace].
Defined.


Lemma retried_until_authentication_failure_witness :
  fst (importCustomizeSetting "/" 5 Samples.messages Cases.refused_at_last
         Samples.manifest 0 Samples.options
         (Samples.world 0 Samples.empty_disk)) =
    Rejected (Error "en:E_Authentication") /\
  fetches
    (snd (importCustomizeSetting "/" 5 Samples.messages Cases.refused_at_last
            Samples.manifest 0 Samples.options
            (Samples.world 0 Samples.empty_disk))) = 3.
Proof.
  rewrite (retried_until_authentication_failure "/" 5 Samples.messages
             Cases.refused_at_last Samples.manifest 0 Samples.options
             (Samples.world 0 Samples.empty_disk) {| retryCount := 0 |}
             (AuthenticationError "401") 2 Cases.numbered).
  - split; reflexivity.
  - reflexivity.
  - intros j Hj. destruct j as [|[|j]]; [split; reflexivity..|lia].
  - right. reflexivity.
  - reflexivity.
  - reflexivity.
Defined.

Lemma gives_up_with_the_last_error_witness :
  importCustomizeSetting "/" 3 Samples.messages Cases.never_answering
    Samples.manifest 0 Samples.options (Samples.world 0 Samples.empty_disk) =
  (Rejected (Error "third"),
   {| heap := [{| retryCount := 0 |}; {| retryCount := 1 |};
               {| retryCount := 2 |}];
      disk := Samples.empty_disk;
      fetches := 3;
      trace :=
        [EvGetAppCustomize "1"; EvWait 1000; EvConsoleLog "en:E_Retry";
         EvGetAppCustomize "1"; EvWait 1000; EvConsoleLog "en:E_Retry";
         EvGetAppCustomize "1"];
      pending := [] |}).
Proof.
  rewrite (gives_up_with_the_last_error "/" 3 Samples.messages
             Cases.never_answering Samples.manifest 0 Samples.options
             (Samples.world 0 Samples.empty_disk) {| retryCount := 0 |}
             Cases.numbered).
  - reflexivity.
  - reflexivity.
  - intros j. split; reflexivity.
Defined.

Lemma exportAsManifestFile_fails_before_writing_witness :
  fst (exportAsManifestFile "/" "1" "dest" Samples.resp
         (Samples.world 0 (Cases.without "dest"))) = Thrown (Error "EACCES") /\
  pending
    (snd (exportAsManifestFile "/" "1" "dest" Samples.resp
            (Samples.world 0 (Cases.without "dest")))) = [].
Proof.
  destruct (exportAsManifestFile_fails_before_writing "/" "1" "dest"
              Samples.resp (Samples.world 0 (Cases.without "dest"))
              (Error "EACCES"))
    as (Hthrown & Hpending & _).
  - reflexivity.
  - reflexivity.
  - split; [exact Hthrown|exact Hpending].
Defined.

Lemma downloadCustomizeFiles_fails_before_downloading_witness :
  fst (downloadCustomizeFiles "/" (Samples.serving Samples.resp) "1" "dest"
         Samples.resp (Samples.world 0 (Cases.without "dest/desktop/css/")))
    = Thrown (Error "EACCES") /\
  trace
    (snd (downloadCustomizeFiles "/" (Samples.serving Samples.resp) "1"
            "dest" Samples.resp
            (Samples.world 0 (Cases.without "dest/desktop/css/")))) =
    [EvMkdirpSync "dest/desktop/js/"; EvMkdirpSync "dest/desktop/css/"].
Proof.
  destruct (downloadCustomizeFiles_fails_before_downloading "/"
              (Samples.serving Samples.resp) "1" "dest" Samples.resp
              (Samples.world 0 (Cases.without "dest/desktop/css/"))
              ["dest/desktop/js/"] ["dest/mobile/js/"] "dest/desktop/css/"
              (Error "EACCES"))
    as (Hthrown & _ & Htrace).
  - reflexivity.
  - intros q Hq. apply list_elem_of_singleton in Hq. subst q. reflexivity.
  - reflexivity.
  - split; [exact Hthrown|exact Htrace].
Defined.

Lemma download_loop_stops_at_a_throw_witness :
  forEach (downloadAndWriteFile "/" Cases.throwing_download "dest/desktop/js")
    [UploadedFile "k1" "a.js"; UploadedFile "k2" "b.js";
     UploadedFile "k3" "c.js"]
    (Samples.world 0 Samples.empty_disk) =
  (Thrown (Error "boom"),
   {| heap := [{| retryCount := 0 |}]; disk := Samples.empty_disk;
      fetches := 0;
      trace := [EvDownloadFile "k1"; EvDownloadFile "k2"];
      pending :=
        [ThenWriteFile (Resolved "content of k1") "dest/desktop/js/a.js"] |}).
Proof.
  apply (download_loop_stops_at_a_throw "/" Cases.throwing_download
           Samples.content "dest/desktop/js" [UploadedFile "k1" "a.js"]
           [UploadedFile "k3" "c.js"] "k2" "b.js" (Error "boom")
           (Samples.world 0 Samples.empty_disk)).
  - intros key display Hin. apply list_elem_of_singleton in Hin.
    injection Hin as -> ->. reflexivity.
  - reflexivity.
Defined.

Lemma manifest_paths_are_download_targets_witness :
  exists tasks : list Task,
    pending
      (snd (downloadCustomizeFiles "/" (Samples.serving Samples.resp) "1"
              "dest" Samples.resp (Samples.world 0 Samples.empty_disk))) =
      tasks /\
    map task_path tasks = ["dest/desktop/js/a.js"; "dest/desktop/css/a.css"] /\
    manifest_desktop_js (customizeJson "/" "1" "dest" Samples.resp) =
      ["dest/desktop/js/a.js"; "https://cdn/x.js"].
Proof.
  destruct (manifest_paths_are_download_targets "/"
              (Samples.serving Samples.resp) Samples.content "1" "dest"
              Samples.resp (Samples.world 0 Samples.empty_disk))
    as [(Hjs & _ & _) (tasks & Hpending & Hpaths)].
  - intros fileKey. reflexivity.
  - intros path. reflexivity.
  - exists tasks. split; [exact Hpending|]. split; [exact Hpaths|exact Hjs].
Defined.

Lemma manifest_file_after_completion_witness :
  let imported :=
    snd (importCustomizeSetting "/" 3 Samples.messages
           (Samples.serving Samples.resp) Samples.manifest 0 Samples.options
           (Samples.world 0 Samples.empty_disk)) in
  files (fst (complete Cases.as_written (pending imported) (disk imported)))
    !! "dest/customize-manifest.json" =
  Some (JSON.stringify
          (manifest_to_JSON (customizeJson "/" "1" "dest" Samples.resp)) 4).
Proof.
  apply (manifest_file_after_completion "/" 3 Samples.messages
           Cases.as_written (Samples.serving Samples.resp) Samples.content
           Samples.manifest 0 Samples.options
           (Samples.world 0 Samples.empty_disk) {| retryCount := 0 |}
           Samples.resp).
  - intros fileKey. reflexivity.
  - reflexivity.
  - reflexivity.
  - reflexivity.
  - intros path. reflexivity.
  - intros path. reflexivity.
  - intros slot fileKey name Hslot _ Hpath. unfold Cases.as_written in Hpath.
    apply (target_inj "/" "dest" slot 0 name "") in Hpath; lia.
  - reflexivity.
Defined.

(** Without the condition the manifest is not safe: a display name that
    leads through [..] puts the content of the uploaded file where the
    manifest was written. *)
Lemma display_name_reaches_the_manifest :
  let imported :=
    snd (importCustomizeSetting "/" 3 Samples.messages
           (Samples.serving Cases.climber) Samples.manifest 0 Samples.options
           (Samples.world 0 Samples.empty_disk)) in
  files (fst (complete Cases.climbing (pending imported) (disk imported)))
    !! "dest/customize-manifest.json" = Some "content of k1".
Proof. vm_compute. reflexivity. Qed.

Lemma asset_file_after_completion_witness :
  let imported :=
    snd (importCustomizeSetting "/" 3 Samples.messages
           (Samples.serving Samples.resp) Samples.manifest 0 Samples.options
           (Samples.world 0 Samples.empty_disk)) in
  files (fst (complete Cases.as_written (pending imported) (disk imported)))
    !! "dest/desktop/js/a.js" = Some "content of k1".
Proof.
  apply (asset_file_after_completion "/" 3 Samples.messages
           Cases.as_written (Samples.serving Samples.resp) Samples.content
           Samples.manifest 0 Samples.options
           (Samples.world 0 Samples.empty_disk) {| retryCount := 0 |}
           Samples.resp 1 "k1" "a.js" "content of k1").
  - intros key. reflexivity.
  - reflexivity.
  - reflexivity.
  - reflexivity.
  - intros path. reflexivity.
  - intros path. reflexivity.
  - lia.
  - apply consistent_agree_on; [intros path; reflexivity|].
    apply import_tasks_consistent.
    + intros k1 k2 name H1 H2. cbn in H1, H2.
      apply list_elem_of_In in H1, H2. cbn in H1, H2.
      destruct H1 as [H1|[H1|[]]]; destruct H2 as [H2|[H2|[]]];
        congruence.
    + intros k1 k2 name H1 H2. cbn in H1, H2.
      apply list_elem_of_In in H1, H2. cbn in H1, H2.
      destruct H1 as [H1|[]]; destruct H2 as [H2|[]]; congruence.
    + intros k1 k2 name H1 H2. cbn in H1. inversion H1.
  - apply list_elem_of_here.
  - reflexivity.
  - reflexivity.
Defined.

Lemma rejected_download_goes_unnoticed_witness :
  let imported :=
    importCustomizeSetting "/" 3 Samples.messages Cases.partly_serving
      Samples.manifest 0 Samples.options
      (Samples.world 0 Samples.empty_disk) in
  fst imported = Resolved tt /\
  UnhandledRejection (Error "404")
    ∈ snd (settle (pending (snd imported)) (disk (snd imported))).
Proof.
  destruct (rejected_download_goes_unnoticed "/" 3 Samples.messages
              Cases.partly_serving Cases.partly Samples.manifest 0
              Samples.options (Samples.world 0 Samples.empty_disk)
              {| retryCount := 0 |} Samples.resp 1 "k1" "a.js" (Error "404"))
    as [Hfulfilled Hincident].
  - intros key. reflexivity.
  - reflexivity.
  - reflexivity.
  - intros path. reflexivity.
  - intros path. reflexivity.
  - lia.
  - apply list_elem_of_here.
  - reflexivity.
  - split; [exact Hfulfilled|]. apply Hincident. reflexivity.
Defined.


Lemma runImport_without_a_manifest_witness :
  runImport "/" 3 Samples.messages Cases.parse Cases.connect
    "example.cybozu.com" "sato" "secret" None None "m.json" Samples.options
    (Samples.world 0 Samples.empty_disk) =
  (Rejected (Error "ENOENT: no such file or directory, open 'm.json'"),
   Samples.world 0 Samples.empty_disk).
Proof.
  apply (runImport_without_a_manifest "/" 3 Samples.messages Cases.parse
           Cases.connect "example.cybozu.com" "sato" "secret" None None
           "m.json" Samples.options (Samples.world 0 Samples.empty_disk)).
  left. split; reflexivity.
Defined.

Lemma runImport_starts_with_a_full_budget_witness :
  exists k : nat,
    k < 3 /\
    fetches
      (snd (runImport "/" 3 Samples.messages Cases.parse Cases.connect
              "example.cybozu.com" "sato" "secret" None None "m.json"
              Samples.options
              (Samples.world 2 (Cases.with_file "m.json" "{}")))) =
    0 + k + 1.
Proof.
  destruct (runImport_starts_with_a_full_budget "/" 3 Samples.messages
              Cases.parse Cases.connect "example.cybozu.com" "sato" "secret"
              None None "m.json" Samples.options
              (Samples.world 2 (Cases.with_file "m.json" "{}")) "{}"
              {| import_app := "1" |})
    as (k & evs & Hk & _ & _ & Hfetches & _).
  - reflexivity.
  - reflexivity.
  - exists k. split; [exact Hk|exact Hfetches].
Defined.

Lemma runImport_reads_the_written_manifest_witness :
  let imported :=
    snd (importCustomizeSetting "/" 3 Samples.messages
           (Samples.serving Samples.resp) Samples.manifest 0 Samples.options
           (Samples.world 0 Samples.empty_disk)) in
  let completed :=
    set_disk
      (fst (complete Cases.as_written (pending imported) (disk imported)))
      imported in
  let written :=
    JSON.stringify
      (manifest_to_JSON (customizeJson "/" "1" "dest" Samples.resp)) 4 in
  exists evs : list Event,
    trace
      (snd (runImport "/" 3 Samples.messages
              (Cases.accepting written {| import_app := "1" |})
              Cases.connect "example.cybozu.com" "sato" "secret" None None
              "dest/customize-manifest.json" Samples.options completed)) =
    trace completed ++ EvGetAppCustomize "1" :: evs.
Proof.
  intros imported completed written.
  apply (runImport_reads_the_written_manifest "/" 3 Samples.messages
           Cases.as_written
           (Cases.accepting written {| import_app := "1" |})
           Cases.connect "example.cybozu.com" "sato" "secret"
           None None Samples.options (Samples.serving Samples.resp)
           Samples.content Samples.manifest {| import_app := "1" |} 0
           Samples.options (Samples.world 0 Samples.empty_disk)
           {| retryCount := 0 |} Samples.resp).
  - intros fileKey. reflexivity.
  - reflexivity.
  - reflexivity.
  - reflexivity.
  - intros path. reflexivity.
  - intros path. reflexivity.
  - intros slot fileKey name Hslot _ Hpath. unfold Cases.as_written in Hpath.
    apply (target_inj "/" "dest" slot 0 name "") in Hpath; lia.
  - reflexivity.
  - unfold Cases.accepting. now rewrite decide_True.
Defined.
